(** * Invitation codes and RSVPs of the dududrilla wedding site

    A shallow embedding of the Firestore-facing modules of [src/script.js]
    ([window.RSVPModule] and [window.InvitationCodes]) and of [updateCode]
    in [src/js/admin-dashboard.js].

    The Firestore database is modelled as two association lists (document
    id, document), one per collection.  A query [where('code','==',c).limit(1)]
    returns the first matching document.  A batched write is applied op by op
    and is all-or-nothing: an [update] of a missing document makes the whole
    batch fail, as Firestore does.  Environmental facts the code cannot
    control (whether [getFirestore()] returned a client, whether a read or a
    write reaches the server, the id chosen by [doc()], the server timestamp)
    live in an [Env] record.  The asynchronous functions run in a small
    state-and-error monad over the database, the module-level session state
    ([currentInvitationCode], the [rsvpSubmitted] session key) and a log of
    the store accesses issued. *)

From Stdlib Require Import String Ascii ZArith List Bool Lia.
Import ListNotations.

Open Scope string_scope.
Open Scope Z_scope.

(** ** JavaScript string helpers *)

Module JsString.

(** Characters removed by [String.prototype.trim] that a byte string can
    hold: TAB, LF, VT, FF, CR, SPACE and NO-BREAK SPACE (U+00A0). *)
Definition is_ws (c : ascii) : bool :=
  let n := nat_of_ascii c in
  (Nat.eqb n 9 || Nat.eqb n 10 || Nat.eqb n 11 || Nat.eqb n 12
   || Nat.eqb n 13 || Nat.eqb n 32 || Nat.eqb n 160)%bool.

Fixpoint drop_ws (l : list ascii) : list ascii :=
  match l with
  | c :: r => if is_ws c then drop_ws r else l
  | [] => []
  end.

(** [s.trim()] *)
Definition trim (s : string) : string :=
  string_of_list_ascii
    (rev (drop_ws (rev (drop_ws (list_ascii_of_string s))))).

(** The upper-case mapping of [String.prototype.toUpperCase] on a byte
    read as a Latin-1 character: a-z, U+00E0..U+00F6 and U+00F8..U+00FE
    move down by 32, and U+00DF (sharp s) becomes ["SS"].  The capitals of
    U+00B5 (micro sign, to U+039C) and U+00FF (y with diaeresis, to
    U+0178) lie outside Latin-1 and cannot be held by a byte string: these
    two are left as they are, so the model is exact on strings without
    them (see [upper_in_latin1]). *)
Definition upper_char (c : ascii) : list ascii :=
  let n := nat_of_ascii c in
  if (Nat.leb 97 n && Nat.leb n 122
      || Nat.leb 224 n && Nat.leb n 246
      || Nat.leb 248 n && Nat.leb n 254)%bool
  then [ascii_of_nat (n - 32)]
  else if Nat.eqb n 223 then ["S"%char; "S"%char]
  else [c].

(** The characters whose upper-case form is again a Latin-1 character
    (string): all but U+00B5 and U+00FF. *)
Definition upper_in_latin1 (c : ascii) : bool :=
  let n := nat_of_ascii c in negb (Nat.eqb n 181 || Nat.eqb n 255).

(** [s.toUpperCase()] *)
Definition toUpperCase (s : string) : string :=
  string_of_list_ascii (flat_map upper_char (list_ascii_of_string s)).

(** [code.trim().toUpperCase()] *)
Definition normalize (s : string) : string := toUpperCase (trim s).

Definition is_digit (c : ascii) : bool :=
  let n := nat_of_ascii c in (Nat.leb 48 n && Nat.leb n 57)%bool.

Fixpoint digit_run (l : list ascii) : list Z :=
  match l with
  | c :: r =>
      if is_digit c then Z.of_nat (nat_of_ascii c - 48) :: digit_run r else []
  | [] => []
  end.

Definition digits_value (ds : list Z) : Z :=
  fold_left (fun acc d => acc * 10 + d) ds 0.

(** [parseInt(s, 10)]: leading white space, an optional sign, then the
    longest run of decimal digits; [None] stands for [NaN]. *)
Definition parseInt10 (s : string) : option Z :=
  let l := drop_ws (list_ascii_of_string s) in
  let '(sign, rest) :=
    match l with
    | c :: r =>
        if Ascii.eqb c "-"%char then (-1, r)
        else if Ascii.eqb c "+"%char then (1, r)
        else (1, l)
    | [] => (1, l)
    end in
  match digit_run rest with
  | [] => None
  | ds => Some (sign * digits_value ds)
  end.

End JsString.

Import JsString.

(** [v || d] on a number field: [undefined], [0] (and [NaN]) are falsy. *)
Definition js_or (v : option Z) (d : Z) : Z :=
  match v with
  | Some z => if Z.eqb z 0 then d else z
  | None => d
  end.

(** ** Documents *)

(** A document of the [invitationCodes] collection.  Number fields may be
    missing, hence [option Z]. *)
Record CodeDoc := mkCodeDoc {
  cd_code : string;
  cd_assignedTo : string;
  cd_maxGuests : option Z;
  cd_usedGuests : option Z;
  cd_isActive : bool;
  cd_createdAt : option Z;
  cd_updatedAt : option Z
}.

(** A document of the [rsvps] collection. *)
Record RsvpDoc := mkRsvpDoc {
  r_code : string;
  r_codeId : string;
  r_name : string;
  r_guestsCount : Z;
  r_email : string;
  r_phone : string;
  r_attendance : string;
  r_allergies : string;
  r_createdAt : Z
}.

Record Store := mkStore {
  st_codes : list (string * CodeDoc);
  st_rsvps : list (string * RsvpDoc)
}.

(** The object returned by [fetchCodeData]. *)
Record Snapshot := mkSnapshot {
  s_id : string;
  s_code : string;
  s_assignedTo : string;
  s_maxGuests : Z;
  s_usedGuests : Z;
  s_remainingGuests : Z;
  s_isActive : bool
}.

(** ** Association lists (document id -> document) *)

Section Assoc.
Context {V : Type}.

Fixpoint lookup (k : string) (l : list (string * V)) : option V :=
  match l with
  | (k', v) :: r => if String.eqb k k' then Some v else lookup k r
  | [] => None
  end.

(** [set]: overwrite the document in place, or add it at the end. *)
Fixpoint assoc_set (k : string) (v : V) (l : list (string * V))
  : list (string * V) :=
  match l with
  | (k', v') :: r =>
      if String.eqb k k' then (k', v) :: r else (k', v') :: assoc_set k v r
  | [] => [(k, v)]
  end.

Fixpoint assoc_remove (k : string) (l : list (string * V))
  : list (string * V) :=
  match l with
  | (k', v') :: r =>
      if String.eqb k k' then assoc_remove k r else (k', v') :: assoc_remove k r
  | [] => []
  end.

(** Rewrite the document with id [k], if present. *)
Definition assoc_map_at (k : string) (f : V -> V) (l : list (string * V))
  : list (string * V) :=
  map (fun p => if String.eqb k (fst p) then (fst p, f (snd p)) else p) l.

End Assoc.

(** ** Store primitives *)

(** [FieldValue.increment(delta)] on [usedGuests]: a missing field counts
    as 0.  No clamping. *)
Definition inc_used (delta : Z) (d : CodeDoc) : CodeDoc :=
  {| cd_code := cd_code d; cd_assignedTo := cd_assignedTo d;
     cd_maxGuests := cd_maxGuests d;
     cd_usedGuests := Some (match cd_usedGuests d with
                            | Some u => u + delta
                            | None => delta
                            end);
     cd_isActive := cd_isActive d; cd_createdAt := cd_createdAt d;
     cd_updatedAt := cd_updatedAt d |}.

(** Every [usedGuests] counter [increment] batch operation rewrites. *)
Definition incr_codes (cid : string) (delta : Z)
    (codes : list (string * CodeDoc)) : list (string * CodeDoc) :=
  assoc_map_at cid (inc_used delta) codes.

Inductive BatchOp :=
  | BSetRsvp (id : string) (d : RsvpDoc)
  | BDeleteRsvp (id : string)
  | BIncUsed (codeId : string) (delta : Z).

(** One batch operation; an [update] of a missing document fails. *)
Definition apply_op (s : Store) (op : BatchOp) : option Store :=
  match op with
  | BSetRsvp id d => Some (mkStore (st_codes s) (assoc_set id d (st_rsvps s)))
  | BDeleteRsvp id => Some (mkStore (st_codes s) (assoc_remove id (st_rsvps s)))
  | BIncUsed cid delta =>
      match lookup cid (st_codes s) with
      | Some _ => Some (mkStore (incr_codes cid delta (st_codes s)) (st_rsvps s))
      | None => None
      end
  end.

(** [batch.commit()]: all operations or none. *)
Fixpoint apply_batch (s : Store) (ops : list BatchOp) : option Store :=
  match ops with
  | op :: r =>
      match apply_op s op with
      | Some s' => apply_batch s' r
      | None => None
      end
  | [] => Some s
  end.

(** The fields [updateCode] may send to [doc(codeId).update(...)]. *)
Record CodePatch := mkCodePatch {
  p_assignedTo : option string;
  p_maxGuests : option Z;
  p_isActive : option bool;
  p_updatedAt : option Z
}.

Definition opt_set {A} (o : option A) (old : A) : A :=
  match o with Some x => x | None => old end.

Definition apply_patch (p : CodePatch) (d : CodeDoc) : CodeDoc :=
  {| cd_code := cd_code d;
     cd_assignedTo := opt_set (p_assignedTo p) (cd_assignedTo d);
     cd_maxGuests := match p_maxGuests p with
                     | Some m => Some m
                     | None => cd_maxGuests d
                     end;
     cd_usedGuests := cd_usedGuests d;
     cd_isActive := opt_set (p_isActive p) (cd_isActive d);
     cd_createdAt := cd_createdAt d;
     cd_updatedAt := match p_updatedAt p with
                     | Some t => Some t
                     | None => cd_updatedAt d
                     end |}.

(** First document whose [code] field equals [c] ([.limit(1)]). *)
Fixpoint find_code (c : string) (l : list (string * CodeDoc))
  : option (string * CodeDoc) :=
  match l with
  | (id, d) :: r => if String.eqb (cd_code d) c then Some (id, d) else find_code c r
  | [] => None
  end.

Definition rsvp_with_code (c : string) (l : list (string * RsvpDoc)) : bool :=
  existsb (fun p => String.eqb (r_code (snd p)) c) l.

(** ** Errors

    One constructor per [new Error(...)] of the modules; [ErrStore] is any
    error raised by the Firestore client itself. *)
Inductive JsError :=
  | ErrNotInitialized      (* 'Firebase no está inicializado...' *)
  | ErrEmptyCode           (* 'Por favor, introduce un código de invitación válido.' *)
  | ErrCodeInvalid         (* 'El código de invitación no es válido.' *)
  | ErrCodeInactive        (* 'Este código de invitación ya no está activo.' *)
  | ErrCodeExhausted       (* 'Este código ... máximo de invitados permitidos.' *)
  | ErrValidateFailed      (* 'Error al validar el código...' *)
  | ErrNoActiveCode        (* 'No hay un código de invitación válido...' *)
  | ErrNameRequired        (* 'Por favor, introduce tu nombre completo.' *)
  | ErrEmailRequired       (* 'Por favor, introduce tu email.' *)
  | ErrAttendanceRequired  (* 'Por favor, indica si asistirás.' *)
  | ErrAlreadySubmitted    (* 'Ya has enviado tu confirmación anteriormente...' *)
  | ErrCapacityExceeded (remaining : Z) (* 'El número de invitados excede ...' *)
  | ErrSubmissionFailed    (* 'Error al enviar tu confirmación...' *)
  | ErrRsvpNotFound        (* 'RSVP no encontrado.' *)
  | ErrDeleteFailed        (* 'Error al eliminar la confirmación.' *)
  | ErrNoValidFields       (* 'No hay campos válidos para actualizar.' *)
  | ErrUpdateFailed        (* 'Error al actualizar el código de invitación.' *)
  | ErrStore.

(** [error.message.includes('código')] *)
Definition message_has_codigo (e : JsError) : bool :=
  match e with
  | ErrEmptyCode | ErrCodeInvalid | ErrCodeInactive | ErrCodeExhausted
  | ErrValidateFailed | ErrNoActiveCode | ErrUpdateFailed => true
  | _ => false
  end.

(** [error.message.includes('Ya has enviado')] *)
Definition message_has_ya_has_enviado (e : JsError) : bool :=
  match e with ErrAlreadySubmitted => true | _ => false end.

(** ** The world the modules run in *)

(** What the environment decides. *)
Record Env := mkEnv {
  env_db : bool;          (* [getFirestore()] returned a client *)
  env_reads_ok : bool;    (* queries and [get()] reach the server *)
  env_writes_ok : bool;   (* [commit()] and [update()] reach the server *)
  env_new_id : string;    (* id of [collection('rsvps').doc()] *)
  env_now : Z             (* [serverTimestamp()] *)
}.

(** Module-level state of [RSVPModule] and the [rsvpSubmitted] key of
    [sessionStorage]. *)
Record Session := mkSession {
  ss_current : option Snapshot;
  ss_rsvpSubmitted : bool
}.

Inductive Access :=
  | AQueryCodes (code : string)
  | AQueryRsvps (code : string)
  | AGetRsvp (id : string)
  | ACommit (ops : list BatchOp)
  | AUpdateCode (id : string) (p : CodePatch).

Record World := mkWorld {
  w_store : Store;
  w_session : Session;
  w_log : list Access   (* store accesses, most recent first *)
}.

Inductive result (A : Type) :=
  | Ok (a : A)
  | Err (e : JsError).
Arguments Ok {A} a.
Arguments Err {A} e.

(** An [async] function: reads the environment, threads the world, may
    reject. *)
Definition M (A : Type) := Env -> World -> result A * World.

Definition ret {A} (a : A) : M A := fun _ w => (Ok a, w).
Definition throw {A} (e : JsError) : M A := fun _ w => (Err e, w).
Definition bind {A B} (m : M A) (f : A -> M B) : M B :=
  fun env w =>
    match m env w with
    | (Ok a, w') => f a env w'
    | (Err e, w') => (Err e, w')
    end.
(** [try { m } catch (e) { h(e) }] *)
Definition catch {A} (m : M A) (h : JsError -> M A) : M A :=
  fun env w =>
    match m env w with
    | (Err e, w') => h e env w'
    | r => r
    end.
Definition ask : M Env := fun env w => (Ok env, w).
Definition get_world : M World := fun _ w => (Ok w, w).

Notation "x <- m ;; k" := (bind m (fun x => k))
  (at level 61, m at next level, right associativity).
Notation "m ;;; k" := (bind m (fun _ => k))
  (at level 61, right associativity).

Definition log_access (a : Access) (w : World) : World :=
  mkWorld (w_store w) (w_session w) (a :: w_log w).

(** [collection('invitationCodes').where('code','==',c).limit(1).get()] *)
Definition query_codes (c : string) : M (option (string * CodeDoc)) :=
  fun env w =>
    let w' := log_access (AQueryCodes c) w in
    if env_reads_ok env then (Ok (find_code c (st_codes (w_store w))), w')
    else (Err ErrStore, w').

(** [!collection('rsvps').where('code','==',c).limit(1).get().empty] *)
Definition query_rsvps (c : string) : M bool :=
  fun env w =>
    let w' := log_access (AQueryRsvps c) w in
    if env_reads_ok env then (Ok (rsvp_with_code c (st_rsvps (w_store w))), w')
    else (Err ErrStore, w').

(** [collection('rsvps').doc(id).get()] *)
Definition get_rsvp (id : string) : M (option RsvpDoc) :=
  fun env w =>
    let w' := log_access (AGetRsvp id) w in
    if env_reads_ok env then (Ok (lookup id (st_rsvps (w_store w))), w')
    else (Err ErrStore, w').

(** [batch.commit()] *)
Definition commit (ops : list BatchOp) : M unit :=
  fun env w =>
    let w' := log_access (ACommit ops) w in
    if env_writes_ok env then
      match apply_batch (w_store w) ops with
      | Some s' => (Ok tt, mkWorld s' (w_session w') (w_log w'))
      | None => (Err ErrStore, w')
      end
    else (Err ErrStore, w').

(** [collection('invitationCodes').doc(id).update(p)]; fails on a missing
    document. *)
Definition update_code (id : string) (p : CodePatch) : M unit :=
  fun env w =>
    let w' := log_access (AUpdateCode id p) w in
    if env_writes_ok env then
      match lookup id (st_codes (w_store w)) with
      | Some _ =>
          (Ok tt, mkWorld (mkStore (assoc_map_at id (apply_patch p)
                                      (st_codes (w_store w)))
                                   (st_rsvps (w_store w)))
                          (w_session w') (w_log w'))
      | None => (Err ErrStore, w')
      end
    else (Err ErrStore, w').

Definition set_session (f : Session -> Session) : M unit :=
  fun _ w => (Ok tt, mkWorld (w_store w) (f (w_session w)) (w_log w)).

(** ** [InvitationCodes] *)

(** [!code || typeof code !== 'string' || code.trim() === ''] *)
Definition blank_code (code : string) : bool :=
  (String.eqb code "" || String.eqb (trim code) "")%bool.

Definition snapshot_of (id : string) (d : CodeDoc) : Snapshot :=
  let usedGuests := js_or (cd_usedGuests d) 0 in
  let maxGuests := js_or (cd_maxGuests d) 1 in
  {| s_id := id; s_code := cd_code d; s_assignedTo := cd_assignedTo d;
     s_maxGuests := maxGuests; s_usedGuests := usedGuests;
     s_remainingGuests := Z.max 0 (maxGuests - usedGuests);
     s_isActive := cd_isActive d |}.

Definition fetchCodeData (code : string) : M Snapshot :=
  env <- ask ;;
  if negb (env_db env) then throw ErrNotInitialized else
  if blank_code code then throw ErrEmptyCode else
  let normalizedCode := normalize code in
  catch
    (q <- query_codes normalizedCode ;;
     match q with
     | None => throw ErrCodeInvalid
     | Some (id, codeData) =>
         if negb (cd_isActive codeData) then throw ErrCodeInactive
         else ret (snapshot_of id codeData)
     end)
    (fun error =>
       if message_has_codigo error then throw error
       else throw ErrValidateFailed).

Definition validateCode (code : string) : M Snapshot :=
  codeData <- fetchCodeData code ;;
  if s_remainingGuests codeData <=? 0 then throw ErrCodeExhausted
  else ret codeData.

Definition validateCodeForAccess (code : string) : M Snapshot :=
  fetchCodeData code.

(** ** [RSVPModule] *)

Definition checkExistingRSVP (code : string) : M bool :=
  env <- ask ;;
  if negb (env_db env) then throw ErrNotInitialized else
  if blank_code code then ret false else
  let normalizedCode := normalize code in
  catch (query_rsvps normalizedCode) (fun _ => ret false).

(** The object built by the RSVP form handler. *)
Record FormData := mkFormData {
  fd_name : option string;
  fd_email : option string;
  fd_phone : option string;
  fd_guestsCount : string;
  fd_attendance : option string;
  fd_allergies : option string
}.

(** [!x || x.trim() === ''] *)
Definition js_blank (o : option string) : bool :=
  match o with
  | None => true
  | Some s => (String.eqb s "" || String.eqb (trim s) "")%bool
  end.

(** [!x] on a string field. *)
Definition js_falsy_str (o : option string) : bool :=
  match o with None => true | Some s => String.eqb s "" end.

(** [x ? x.trim() : ''] *)
Definition trim_or_empty (o : option string) : string :=
  match o with
  | Some s => if String.eqb s "" then "" else trim s
  | None => ""
  end.

(** The three required-field checks, in source order. *)
Definition fields_error (fd : FormData) : option JsError :=
  if js_blank (fd_name fd) then Some ErrNameRequired
  else if js_blank (fd_email fd) then Some ErrEmailRequired
  else if js_falsy_str (fd_attendance fd) then Some ErrAttendanceRequired
  else None.

(** [parseInt(formData.guestsCount, 10) || 1] *)
Definition guests_count_of (fd : FormData) : Z :=
  js_or (parseInt10 (fd_guestsCount fd)) 1.

(** [formData.attendance === 'si'] *)
Definition attending (fd : FormData) : bool :=
  match fd_attendance fd with
  | Some a => String.eqb a "si"
  | None => false
  end.

Definition build_rsvp (cur : Snapshot) (fd : FormData) (guestsCount : Z)
    (now : Z) : RsvpDoc :=
  {| r_code := s_code cur; r_codeId := s_id cur;
     r_name := trim_or_empty (fd_name fd);
     r_guestsCount := guestsCount;
     r_email := trim_or_empty (fd_email fd);
     r_phone := trim_or_empty (fd_phone fd);
     r_attendance := if attending fd then "Will attend" else "Will not attend";
     r_allergies := trim_or_empty (fd_allergies fd);
     r_createdAt := now |}.

(** The batch of [submitRSVP]: [batch.set(rsvpRef, rsvpData)], then the
    [usedGuests] increment only when attending. *)
Definition submit_batch (rsvpRef : string) (rsvpData : RsvpDoc)
    (cur : Snapshot) (fd : FormData) (guestsCount : Z) : list BatchOp :=
  BSetRsvp rsvpRef rsvpData
    :: (if attending fd then [BIncUsed (s_id cur) guestsCount] else []).

Definition submitRSVP (fd : FormData) : M (string * RsvpDoc) :=
  env <- ask ;;
  if negb (env_db env) then throw ErrNotInitialized else
  w <- get_world ;;
  match ss_current (w_session w) with
  | None => throw ErrNoActiveCode
  | Some cur =>
      match fields_error fd with
      | Some e => throw e
      | None =>
          existingRSVP <- checkExistingRSVP (s_code cur) ;;
          if existingRSVP then throw ErrAlreadySubmitted else
          let guestsCount := guests_count_of fd in
          if guestsCount >? s_remainingGuests cur
          then throw (ErrCapacityExceeded (s_remainingGuests cur)) else
          let rsvpData := build_rsvp cur fd guestsCount (env_now env) in
          let rsvpRef := env_new_id env in
          catch
            (commit (submit_batch rsvpRef rsvpData cur fd guestsCount) ;;;
             set_session (fun s => mkSession (ss_current s) true) ;;;
             set_session (fun s => mkSession None (ss_rsvpSubmitted s)) ;;;
             ret (rsvpRef, rsvpData))
            (fun error =>
               if message_has_ya_has_enviado error then throw error
               else throw ErrSubmissionFailed)
      end
  end.

(** The batch of [deleteRSVP]. *)
Definition delete_batch (rsvpId : string) (rsvpData : RsvpDoc)
  : list BatchOp :=
  BDeleteRsvp rsvpId
    :: (if (String.eqb (r_attendance rsvpData) "Will attend"
            && negb (String.eqb (r_codeId rsvpData) ""))%bool
        then [BIncUsed (r_codeId rsvpData) (- r_guestsCount rsvpData)]
        else []).

Definition deleteRSVP (rsvpId : string) : M bool :=
  env <- ask ;;
  if negb (env_db env) then throw ErrNotInitialized else
  catch
    (rsvpDoc <- get_rsvp rsvpId ;;
     match rsvpDoc with
     | None => throw ErrRsvpNotFound
     | Some rsvpData => commit (delete_batch rsvpId rsvpData) ;;; ret true
     end)
    (fun _ => throw ErrDeleteFailed).

(** ** [AdminDashboard.updateCode] *)

(** The [updates] object; [None] is [undefined].  Fields other than the
    allowed ones ([code], [usedGuests], ...) may be present too. *)
Record Updates := mkUpdates {
  u_assignedTo : option string;
  u_maxGuests : option string;
  u_isActive : option bool;
  u_code : option string;
  u_usedGuests : option Z
}.

(** [allowedFields.forEach(...)] *)
Definition allowed_update_data (updates : Updates) : CodePatch :=
  {| p_assignedTo :=
       option_map (fun s => if String.eqb s "" then "" else trim s)
                  (u_assignedTo updates);
     p_maxGuests :=
       option_map (fun s => js_or (parseInt10 s) 1) (u_maxGuests updates);
     p_isActive := u_isActive updates;
     p_updatedAt := None |}.

(** [Object.keys(updateData).length === 0] *)
Definition patch_empty (p : CodePatch) : bool :=
  match p_assignedTo p, p_maxGuests p, p_isActive p, p_updatedAt p with
  | None, None, None, None => true
  | _, _, _, _ => false
  end.

Definition updateCode (codeId : string) (updates : Updates) : M bool :=
  env <- ask ;;
  if negb (env_db env) then throw ErrNotInitialized else
  let updateData := allowed_update_data updates in
  if patch_empty updateData then throw ErrNoValidFields else
  let updateData :=
    {| p_assignedTo := p_assignedTo updateData;
       p_maxGuests := p_maxGuests updateData;
       p_isActive := p_isActive updateData;
       p_updatedAt := Some (env_now env) |} in
  catch (update_code codeId updateData ;;; ret true)
        (fun _ => throw ErrUpdateFailed).

(** ** Sample data *)

Module Sample.

Definition env_ok : Env := mkEnv true true true "r1" 100.

Definition code1 : CodeDoc :=
  mkCodeDoc "AB12CD34" "Familia" (Some 2) (Some 0) true (Some 1) None.

Definition store0 : Store := mkStore [("c1", code1)] [].

Definition world0 : World :=
  mkWorld store0 (mkSession None false) [].

Definition form_si (g : string) : FormData :=
  mkFormData (Some "Ana") (Some "ana@x.es") None g (Some "si") None.

End Sample.

Example parseInt10_ex1 : parseInt10 "  -12ab" = Some (-12).
Proof. reflexivity. Qed.

Example parseInt10_ex2 : parseInt10 "x1" = None.
Proof. reflexivity. Qed.

Example normalize_ex : normalize " ab12cd34 " = "AB12CD34"%string.
Proof. reflexivity. Qed.

Example validate_lower_ex :
  fst (validateCodeForAccess "ab12cd34" Sample.env_ok Sample.world0)
  = fst (validateCodeForAccess "AB12CD34" Sample.env_ok Sample.world0).
Proof. reflexivity. Qed.

(** ['ñ'.toUpperCase() === 'Ñ'], ['ß'.toUpperCase() === 'SS'] *)
Example toUpperCase_latin1_ex :
  toUpperCase (string_of_list_ascii ["241"; "223"; "215"]%char)
  = string_of_list_ascii ["209"; "S"; "S"; "215"]%char.
Proof. reflexivity. Qed.

(** ** Other pieces of [src/script.js] *)

(** [/^[^\s@]+@[^\s@]+\.[^\s@]+$/]: a character of the class [[^\s@]]. *)
Definition email_char (c : ascii) : bool :=
  (negb (is_ws c) && negb (Ascii.eqb c "@"%char))%bool.

(** Split at the first ['@'] ([[^\s@]+] cannot cross one). *)
Fixpoint split_at_sign (l : list ascii) : option (list ascii * list ascii) :=
  match l with
  | c :: r =>
      if Ascii.eqb c "@"%char then Some ([], r)
      else match split_at_sign r with
           | Some (a, b) => Some (c :: a, b)
           | None => None
           end
  | [] => None
  end.

(** A ['.'] with at least one character after it. *)
Fixpoint dot_not_last (l : list ascii) : bool :=
  match l with
  | c :: ((_ :: _) as r) => (Ascii.eqb c "."%char || dot_not_last r)%bool
  | _ => false
  end.

(** [isValidEmail(email)]: [emailRegex.test(email)].  The part after the
    ['@'] matches [[^\s@]+\.[^\s@]+] when all its characters are in the
    class and it has a ['.'] neither first nor last. *)
Definition isValidEmail (email : string) : bool :=
  match split_at_sign (list_ascii_of_string email) with
  | Some (local, rest) =>
      match local, rest with
      | _ :: _, _ :: rest' =>
          (forallb email_char local && forallb email_char rest
           && dot_not_last rest')%bool
      | _, _ => false
      end
  | None => false
  end.

(** [updateCountdown()]: the four numbers shown for [diff = WEDDING_DATE -
    now] milliseconds (all zero once the date has passed). *)
Definition countdown_parts (diff : Z) : Z * Z * Z * Z :=
  if diff <=? 0 then (0, 0, 0, 0)
  else (diff / (1000 * 60 * 60 * 24),
        (diff mod (1000 * 60 * 60 * 24)) / (1000 * 60 * 60),
        (diff mod (1000 * 60 * 60)) / (1000 * 60),
        (diff mod (1000 * 60)) / 1000).

(** [checkAndHandleExistingRSVP(code)] (with [RSVPModule] loaded): on an
    existing RSVP it sets the [rsvpSubmitted] session key (and shows the
    already-submitted message); any rejection counts as [false]. *)
Definition checkAndHandleExistingRSVP (code : string) : M bool :=
  catch
    (exists_ <- checkExistingRSVP code ;;
     if exists_ then
       set_session (fun s => mkSession (ss_current s) true) ;;; ret true
     else ret false)
    (fun _ => ret false).

(** [RSVPModule.setCurrentCode(codeData)] *)
Definition setCurrentCode (codeData : Snapshot) : M unit :=
  set_session (fun s => mkSession (Some codeData) (ss_rsvpSubmitted s)).

(** ** Other pieces of [InvitationCodes] *)

(** [incrementUsedGuests(codeId, guestsToAdd)]: a single
    [update({usedGuests: increment(n)})], which behaves as a one-operation
    batch; it resolves [false] instead of rejecting. *)
Definition incrementUsedGuests (codeId : string) (guestsToAdd : Z) : M bool :=
  env <- ask ;;
  if negb (env_db env) then ret false else
  catch (commit [BIncUsed codeId guestsToAdd] ;;; ret true)
        (fun _ => ret false).

(** ** Other pieces of [AdminDashboard]

    The admin writes below ([add], [delete] on [invitationCodes]) are not
    recorded in the access log. *)

Inductive AdminError :=
  | AdmNotInitialized    (* 'Firebase no está inicializado.' *)
  | AdmCodeRequired      (* 'El código es obligatorio.' *)
  | AdmCodeExists        (* 'Este código ya existe...' *)
  | AdmCreateFailed      (* 'Error al crear el código de invitación.' *)
  | AdmDeleteCodeFailed  (* 'Error al eliminar el código de invitación.' *)
  | AdmStore (e : JsError).

(** The [codeData] object of [createCode]; [None] is [undefined]. *)
Record NewCode := mkNewCode {
  nc_code : option string;
  nc_assignedTo : option string;
  nc_maxGuests : option string;
  nc_isActive : option bool
}.

(** [parseInt(x, 10)] of a possibly undefined value ([parseInt(undefined)]
    is [NaN]). *)
Definition parse_opt (o : option string) : option Z :=
  match o with Some s => parseInt10 s | None => None end.

Definition new_code_doc (codeData : NewCode) (normalizedCode : string)
    (now : Z) : CodeDoc :=
  {| cd_code := normalizedCode;
     cd_assignedTo := trim_or_empty (nc_assignedTo codeData);
     cd_maxGuests := Some (js_or (parse_opt (nc_maxGuests codeData)) 1);
     cd_usedGuests := Some 0;
     cd_isActive := match nc_isActive codeData with
                    | Some false => false
                    | _ => true
                    end;
     cd_createdAt := Some now;
     cd_updatedAt := None |}.

(** [createCode(codeData)].  The uniqueness query is outside the [try], so
    a failing read rejects with the store's own error. *)
Definition createCode (codeData : NewCode)
  : Env -> World -> (AdminError + (string * CodeDoc)) * World :=
  fun env w =>
    if negb (env_db env) then (inl AdmNotInitialized, w) else
    if js_blank (nc_code codeData) then (inl AdmCodeRequired, w) else
    let normalizedCode := normalize (opt_set (nc_code codeData) "") in
    match query_codes normalizedCode env w with
    | (Err e, w1) => (inl (AdmStore e), w1)
    | (Ok (Some _), w1) => (inl AdmCodeExists, w1)
    | (Ok None, w1) =>
        let newCode := new_code_doc codeData normalizedCode (env_now env) in
        if env_writes_ok env then
          let id := env_new_id env in
          (inr (id, newCode),
           mkWorld (mkStore (assoc_set id newCode (st_codes (w_store w1)))
                            (st_rsvps (w_store w1)))
                   (w_session w1) (w_log w1))
        else (inl AdmCreateFailed, w1)
    end.

(** [deleteCode(codeId)]: deleting a missing document succeeds. *)
Definition deleteCode (codeId : string)
  : Env -> World -> (AdminError + bool) * World :=
  fun env w =>
    if negb (env_db env) then (inl AdmNotInitialized, w) else
    if env_writes_ok env then
      (inr true,
       mkWorld (mkStore (assoc_remove codeId (st_codes (w_store w)))
                        (st_rsvps (w_store w)))
               (w_session w) (w_log w))
    else (inl AdmDeleteCodeFailed, w).

(** [toggleCodeStatus(codeId, isActive)] *)
Definition toggleCodeStatus (codeId : string) (isActive : bool) : M bool :=
  updateCode codeId (mkUpdates None None (Some isActive) None None).

(** The object computed by [getStatistics]. *)
Record Statistics := mkStatistics {
  st_total : Z;
  st_active : Z;
  st_inactive : Z;
  st_maxGuests : Z;
  st_usedGuests : Z;
  st_remainingCapacity : Z;
  st_rsvpTotal : Z;
  st_attending : Z;
  st_notAttending : Z;
  st_totalConfirmedGuests : Z;
  st_totalNotAttendingGuests : Z;
  st_guestsPerCode : list (string * Z)
}.

Definition zlen {A} (l : list A) : Z := Z.of_nat (length l).

Definition sum_by {A} (f : A -> Z) (l : list A) : Z :=
  fold_left (fun sum x => sum + f x) l 0.

(** [r.guestsCount || 1] *)
Definition rsvp_guests (r : RsvpDoc) : Z := js_or (Some (r_guestsCount r)) 1.

Definition is_attending (r : RsvpDoc) : bool :=
  String.eqb (r_attendance r) "Will attend".

Definition is_not_attending (r : RsvpDoc) : bool :=
  String.eqb (r_attendance r) "Will not attend".

(** [guestsPerCode[code] = (guestsPerCode[code] || 0) + (r.guestsCount || 1)]
    over the attending RSVPs, with [r.code || 'Sin código']; a new key goes
    at the end. *)
Definition add_guests_per_code (acc : list (string * Z)) (r : RsvpDoc)
  : list (string * Z) :=
  if is_attending r then
    let code := if String.eqb (r_code r) "" then "Sin código" else r_code r in
    assoc_set code (js_or (lookup code acc) 0 + rsvp_guests r) acc
  else acc.

(** The computation of [getStatistics] on the lists returned by
    [getAllCodes] and [getAllRSVPs]. *)
Definition compute_statistics (codes : list (string * CodeDoc))
    (rsvps : list RsvpDoc) : Statistics :=
  let totalCodes := zlen codes in
  let activeCodes := zlen (filter (fun c => cd_isActive (snd c)) codes) in
  let totalMaxGuests := sum_by (fun c => js_or (cd_maxGuests (snd c)) 0) codes in
  let totalUsedGuests := sum_by (fun c => js_or (cd_usedGuests (snd c)) 0) codes in
  let confirmedAttending := filter is_attending rsvps in
  let notAttending := filter is_not_attending rsvps in
  {| st_total := totalCodes;
     st_active := activeCodes;
     st_inactive := totalCodes - activeCodes;
     st_maxGuests := totalMaxGuests;
     st_usedGuests := totalUsedGuests;
     st_remainingCapacity := totalMaxGuests - totalUsedGuests;
     st_rsvpTotal := zlen rsvps;
     st_attending := zlen confirmedAttending;
     st_notAttending := zlen notAttending;
     st_totalConfirmedGuests := sum_by rsvp_guests confirmedAttending;
     st_totalNotAttendingGuests := sum_by rsvp_guests notAttending;
     st_guestsPerCode := fold_left add_guests_per_code rsvps [] |}.

(** * Properties *)

(** ** Helper lemmas *)

Lemma fetchCodeData_ok (code : string) (env : Env) (w : World) (s : Snapshot) :
  fst (fetchCodeData code env w) = Ok s ->
  env_db env = true /\ blank_code code = false /\
  exists d, find_code (normalize code) (st_codes (w_store w)) = Some (s_id s, d)
            /\ cd_isActive d = true /\ s = snapshot_of (s_id s) d.
Proof.
  unfold fetchCodeData, bind, ask, catch, query_codes, throw, ret.
  destruct (env_db env) eqn:Hdb; simpl; [|discriminate].
  destruct (blank_code code) eqn:Hb; simpl; [discriminate|].
  destruct (env_reads_ok env); simpl.
  - destruct (find_code (normalize code) (st_codes (w_store w)))
      as [[id d]|] eqn:Hf; simpl; [|discriminate].
    destruct (cd_isActive d) eqn:Ha; simpl; [|discriminate].
    intros H; injection H as <-.
    repeat split; auto. exists d. simpl. auto.
  - discriminate.
Qed.

Lemma fetchCodeData_found (code : string) (env : Env) (w : World)
    (id : string) (d : CodeDoc) :
  env_db env = true -> env_reads_ok env = true -> blank_code code = false ->
  find_code (normalize code) (st_codes (w_store w)) = Some (id, d) ->
  cd_isActive d = true ->
  fst (fetchCodeData code env w) = Ok (snapshot_of id d).
Proof.
  intros Hdb Hr Hb Hf Ha.
  unfold fetchCodeData, bind, ask, catch, query_codes, throw, ret.
  rewrite Hdb; simpl. rewrite Hb; simpl. rewrite Hr, Hf; simpl.
  rewrite Ha. reflexivity.
Qed.

Lemma drop_ws_all (l : list ascii) :
  forallb is_ws l = true -> drop_ws l = [].
Proof.
  induction l as [|c r IH]; simpl; [reflexivity|].
  intros H. apply andb_prop in H as [Hc Hr]. rewrite Hc. auto.
Qed.

Lemma blank_code_ws (code : string) :
  forallb is_ws (list_ascii_of_string code) = true -> blank_code code = true.
Proof.
  intros H. unfold blank_code, trim.
  rewrite (drop_ws_all _ H). simpl.
  apply orb_true_r.
Qed.

(** ** Claims about validation *)

(** C4: a stored, active code whose remaining capacity is 0 is rejected
    with [Exhausted] by [validateCode] but accepted, with its snapshot, by
    [validateCodeForAccess]. *)
Theorem exhausted_code_rsvp_vs_access (code : string) (env : Env) (w : World)
    (id : string) (d : CodeDoc) :
  env_db env = true -> env_reads_ok env = true -> blank_code code = false ->
  find_code (normalize code) (st_codes (w_store w)) = Some (id, d) ->
  cd_isActive d = true ->
  s_remainingGuests (snapshot_of id d) = 0 ->
  fst (validateCode code env w) = Err ErrCodeExhausted /\
  fst (validateCodeForAccess code env w) = Ok (snapshot_of id d).
Proof.
  intros Hdb Hr Hb Hf Ha H0.
  pose proof (fetchCodeData_found code env w id d Hdb Hr Hb Hf Ha) as Hok.
  split.
  - unfold validateCode, bind at 1.
    destruct (fetchCodeData code env w) as [[s|e] w'] eqn:E;
      simpl in Hok; [|discriminate].
    injection Hok as ->. rewrite H0. reflexivity.
  - exact Hok.
Qed.

Lemma exhausted_code_rsvp_vs_access_witness :
  let w := mkWorld
             (mkStore [("c1", mkCodeDoc "AB12CD34" "Familia" (Some 2) (Some 2)
                                 true None None)] [])
             (mkSession None false) [] in
  fst (validateCode "ab12cd34" Sample.env_ok w) = Err ErrCodeExhausted /\
  fst (validateCodeForAccess "ab12cd34" Sample.env_ok w)
    = Ok (snapshot_of "c1" (mkCodeDoc "AB12CD34" "Familia" (Some 2) (Some 2)
                                       true None None)).
Proof.
  apply (exhausted_code_rsvp_vs_access "ab12cd34" Sample.env_ok); reflexivity.
Defined.

(** C5 (as amended): the snapshot of a validated code has
    [remainingGuests = max(0, maxGuests - usedGuests)] over its defaulted
    values, which is never negative, and at most [maxGuests] when both
    [usedGuests] and [maxGuests] are non-negative. *)
Theorem remaining_guests_bounds (code : string) (env : Env) (w : World)
    (s : Snapshot) :
  fst (fetchCodeData code env w) = Ok s ->
  s_remainingGuests s = Z.max 0 (s_maxGuests s - s_usedGuests s) /\
  0 <= s_remainingGuests s /\
  (0 <= s_usedGuests s -> 0 <= s_maxGuests s ->
   s_remainingGuests s <= s_maxGuests s).
Proof.
  intros H. apply fetchCodeData_ok in H as (_ & _ & d & _ & _ & Hs).
  rewrite Hs. simpl. lia.
Qed.

Lemma remaining_guests_bounds_witness :
  fst (fetchCodeData "AB12CD34" Sample.env_ok Sample.world0)
    = Ok (snapshot_of "c1" Sample.code1) /\
  s_remainingGuests (snapshot_of "c1" Sample.code1)
    = Z.max 0 (s_maxGuests (snapshot_of "c1" Sample.code1)
               - s_usedGuests (snapshot_of "c1" Sample.code1)) /\
  0 <= s_remainingGuests (snapshot_of "c1" Sample.code1) /\
  (0 <= s_usedGuests (snapshot_of "c1" Sample.code1) ->
   0 <= s_maxGuests (snapshot_of "c1" Sample.code1) ->
   s_remainingGuests (snapshot_of "c1" Sample.code1)
     <= s_maxGuests (snapshot_of "c1" Sample.code1)).
Proof.
  assert (H : fst (fetchCodeData "AB12CD34" Sample.env_ok Sample.world0)
              = Ok (snapshot_of "c1" Sample.code1)) by reflexivity.
  split; [exact H|].
  exact (remaining_guests_bounds _ _ _ _ H).
Defined.

(** C5 counterexample: [updateCode] stores [maxGuests = -3] (from the
    input ["-3"]); the next validation returns [remainingGuests = 0], which
    is greater than the snapshot's [maxGuests = -3]. *)
Lemma remaining_guests_above_max :
  let upd := mkUpdates None (Some "-3") None None None in
  let w1 := snd (updateCode "c1" upd Sample.env_ok Sample.world0) in
  exists s, fst (validateCodeForAccess "AB12CD34" Sample.env_ok w1) = Ok s /\
            s_maxGuests s = -3 /\ s_remainingGuests s = 0 /\
            ~ (s_remainingGuests s <= s_maxGuests s).
Proof.
  simpl. eexists. split; [reflexivity|]. simpl. lia.
Qed.

(** C7 (as amended): validating a blank or white-space-only code, in
    either mode, issues no store access and leaves the world unchanged; it
    fails with [EmptyInput] when the Firestore client is initialised and with
    the not-initialised error otherwise. *)
Theorem blank_code_no_query (code : string) (env : Env) (w : World) :
  forallb is_ws (list_ascii_of_string code) = true ->
  validateCode code env w
    = (Err (if env_db env then ErrEmptyCode else ErrNotInitialized), w) /\
  validateCodeForAccess code env w
    = (Err (if env_db env then ErrEmptyCode else ErrNotInitialized), w).
Proof.
  intros Hws. pose proof (blank_code_ws code Hws) as Hb.
  assert (Hf : fetchCodeData code env w
               = (Err (if env_db env then ErrEmptyCode else ErrNotInitialized), w)).
  { unfold fetchCodeData, bind, ask, throw.
    destruct (env_db env); simpl; [rewrite Hb|]; reflexivity. }
  split.
  - unfold validateCode, bind at 1. rewrite Hf. reflexivity.
  - exact Hf.
Qed.

Lemma blank_code_no_query_witness :
  validateCode " 	 " Sample.env_ok Sample.world0
    = (Err ErrEmptyCode, Sample.world0) /\
  validateCodeForAccess " 	 " Sample.env_ok Sample.world0
    = (Err ErrEmptyCode, Sample.world0).
Proof.
  apply (blank_code_no_query " 	 " Sample.env_ok Sample.world0).
  reflexivity.
Defined.

(** C7 counterexample: with no Firestore client, a blank code fails with
    the not-initialised error, not with [EmptyInput]. *)
Lemma blank_code_without_client :
  fst (validateCode "" (mkEnv false true true "r1" 100) Sample.world0)
    = Err ErrNotInitialized /\ ErrNotInitialized <> ErrEmptyCode.
Proof. split; [reflexivity | discriminate]. Qed.

(** C10: the snapshot reads a missing (or 0) [usedGuests] as 0 and a
    missing (or 0) [maxGuests] as 1, computes [remainingGuests] from these
    defaulted values, and [validateCode]'s capacity test uses that
    [remainingGuests]. *)
Theorem snapshot_defaults (code : string) (env : Env) (w : World)
    (s : Snapshot) :
  fst (fetchCodeData code env w) = Ok s ->
  exists d,
    find_code (normalize code) (st_codes (w_store w)) = Some (s_id s, d) /\
    s_usedGuests s = match cd_usedGuests d with Some u => u | None => 0 end /\
    s_maxGuests s = match cd_maxGuests d with
                    | Some m => if m =? 0 then 1 else m
                    | None => 1
                    end /\
    s_remainingGuests s = Z.max 0 (s_maxGuests s - s_usedGuests s) /\
    fst (validateCode code env w)
      = (if s_remainingGuests s <=? 0 then Err ErrCodeExhausted else Ok s).
Proof.
  intros H. pose proof H as H'.
  apply fetchCodeData_ok in H' as (_ & _ & d & Hf & _ & Hs).
  exists d. split; [exact Hf|].
  split; [rewrite Hs; simpl; unfold js_or;
          destruct (cd_usedGuests d) as [u|]; [destruct (Z.eqb_spec u 0)|];
          simpl; congruence|].
  split; [rewrite Hs; reflexivity|].
  split; [rewrite Hs; reflexivity|].
  unfold validateCode, bind at 1.
  destruct (fetchCodeData code env w) as [[s'|e] w'];
    simpl in H; [|discriminate].
  injection H as ->. destruct (s_remainingGuests s <=? 0); reflexivity.
Qed.

Lemma snapshot_defaults_witness :
  let w := mkWorld
             (mkStore [("c7", mkCodeDoc "XY" "" None None true None None)] [])
             (mkSession None false) [] in
  fst (fetchCodeData "xy" Sample.env_ok w)
    = Ok (mkSnapshot "c7" "XY" "" 1 0 1 true) /\
  exists d,
    find_code (normalize "xy") (st_codes (w_store w)) = Some ("c7", d) /\
    0 = match cd_usedGuests d with Some u => u | None => 0 end /\
    1 = match cd_maxGuests d with
        | Some m => if m =? 0 then 1 else m
        | None => 1
        end /\
    1 = Z.max 0 (1 - 0) /\
    fst (validateCode "xy" Sample.env_ok w)
      = (if 1 <=? 0 then Err ErrCodeExhausted
         else Ok (mkSnapshot "c7" "XY" "" 1 0 1 true)).
Proof.
  intros w.
  assert (H : fst (fetchCodeData "xy" Sample.env_ok w)
              = Ok (mkSnapshot "c7" "XY" "" 1 0 1 true)) by reflexivity.
  split; [exact H|].
  exact (snapshot_defaults "xy" Sample.env_ok w _ H).
Defined.

(** ** Claims about [checkExistingRSVP], [updateCode] and [deleteRSVP] *)

(** C8 (as amended): [checkExistingRSVP] never changes the store or the
    session.  With a Firestore client it never rejects: it answers [false]
    for a blank code or a failed query, and otherwise whether an RSVP with
    exactly the trimmed, upper-cased code exists.  Without a client it
    rejects with the not-initialised error. *)
Theorem checkExisting_read_only (code : string) (env : Env) (w : World) :
  match checkExistingRSVP code env w with
  | (r, w') =>
      w_store w' = w_store w /\ w_session w' = w_session w /\
      r = (if env_db env then
             Ok (if blank_code code then false
                 else if env_reads_ok env
                      then rsvp_with_code (normalize code) (st_rsvps (w_store w))
                      else false)
           else Err ErrNotInitialized)
  end.
Proof.
  unfold checkExistingRSVP, bind, ask, throw, ret, catch, query_rsvps.
  destruct (env_db env); simpl; [|auto].
  destruct (blank_code code); simpl; [auto|].
  destruct (env_reads_ok env); simpl; auto.
Qed.

(** C8 counterexample: without a Firestore client [checkExistingRSVP]
    rejects instead of answering [false]. *)
Lemma checkExisting_throws_without_client :
  fst (checkExistingRSVP "AB12CD34" (mkEnv false true true "r1" 100)
                         Sample.world0) = Err ErrNotInitialized.
Proof. reflexivity. Qed.

Lemma assoc_map_at_patch_frame (cid : string) (p : CodePatch)
    (l : list (string * CodeDoc)) :
  Forall2 (fun x y => fst y = fst x /\ cd_code (snd y) = cd_code (snd x) /\
                      cd_usedGuests (snd y) = cd_usedGuests (snd x) /\
                      cd_createdAt (snd y) = cd_createdAt (snd x))
          l (assoc_map_at cid (apply_patch p) l).
Proof.
  induction l as [|[k d] r IH]; simpl; constructor; auto.
  destruct (String.eqb cid k); simpl; auto.
Qed.

(** C9 (as amended): [updateCode] writes to the code document only the
    fields [assignedTo], [maxGuests] and [isActive] present in [updates],
    plus an [updatedAt] server timestamp: when it resolves, the document
    [codeId] exists and the codes are exactly the old ones with that patch
    applied to [codeId]; the ids, and the fields [code], [usedGuests] and
    [createdAt] of every code document, are unchanged, and the RSVPs are
    untouched.  When none of the three fields is present it rejects, and
    whenever it rejects (in particular when the write fails) the store is
    unchanged. *)
Theorem updateCode_frame (codeId : string) (updates : Updates) (env : Env)
    (w : World) :
  (u_assignedTo updates = None -> u_maxGuests updates = None ->
   u_isActive updates = None ->
   exists e, fst (updateCode codeId updates env w) = Err e) /\
  match updateCode codeId updates env w with
  | (Err _, w') => w_store w' = w_store w
  | (Ok b, w') =>
      b = true /\
      lookup codeId (st_codes (w_store w)) <> None /\
      st_rsvps (w_store w') = st_rsvps (w_store w) /\
      st_codes (w_store w')
        = assoc_map_at codeId
            (apply_patch
               {| p_assignedTo := p_assignedTo (allowed_update_data updates);
                  p_maxGuests := p_maxGuests (allowed_update_data updates);
                  p_isActive := p_isActive (allowed_update_data updates);
                  p_updatedAt := Some (env_now env) |})
            (st_codes (w_store w)) /\
      Forall2 (fun x y => fst y = fst x /\ cd_code (snd y) = cd_code (snd x) /\
                          cd_usedGuests (snd y) = cd_usedGuests (snd x) /\
                          cd_createdAt (snd y) = cd_createdAt (snd x))
              (st_codes (w_store w)) (st_codes (w_store w'))
  end.
Proof.
  split.
  - intros Ha Hm Hi. unfold updateCode, bind, ask, throw.
    destruct (env_db env); simpl; [|eexists; reflexivity].
    unfold allowed_update_data, patch_empty. rewrite Ha, Hm, Hi. simpl.
    eexists; reflexivity.
  - unfold updateCode, bind, ask, throw, ret, catch, update_code.
    destruct (env_db env); simpl; [|reflexivity].
    destruct (patch_empty (allowed_update_data updates)); simpl;
      [reflexivity|].
    destruct (env_writes_ok env); simpl; [|reflexivity].
    destruct (lookup codeId (st_codes (w_store w))) eqn:Hl; simpl;
      [|reflexivity].
    repeat split; auto using assoc_map_at_patch_frame. congruence.
Qed.

(** C9 counterexample: besides [isActive], [updateCode] writes
    [updatedAt], a field outside the three allowed ones. *)
Lemma updateCode_writes_updatedAt :
  let upd := mkUpdates None None (Some false) (Some "HACK") (Some 5) in
  let w' := snd (updateCode "c1" upd Sample.env_ok Sample.world0) in
  lookup "c1" (st_codes (w_store w'))
    = Some (mkCodeDoc "AB12CD34" "Familia" (Some 2) (Some 0) false (Some 1)
                      (Some 100)) /\
  cd_updatedAt Sample.code1 = None.
Proof. split; reflexivity. Qed.

(** C6 (as amended): [deleteRSVP] either rejects and leaves the store
    unchanged, or resolves [true] after committing in one batch: the
    deletion of the existing record [rsvpId] and, only when its stored
    attendance is ["Will attend"] and it carries a [codeId], the decrement of
    that (existing) code's [usedGuests] by the record's [guestsCount].  In
    particular a missing record always ends in a rejection. *)
Theorem deleteRSVP_atomic (rsvpId : string) (env : Env) (w : World) :
  match deleteRSVP rsvpId env w with
  | (Err _, w') => w_store w' = w_store w
  | (Ok b, w') =>
      b = true /\
      exists rd,
        lookup rsvpId (st_rsvps (w_store w)) = Some rd /\
        st_rsvps (w_store w') = assoc_remove rsvpId (st_rsvps (w_store w)) /\
        if (String.eqb (r_attendance rd) "Will attend"
            && negb (String.eqb (r_codeId rd) ""))%bool
        then lookup (r_codeId rd) (st_codes (w_store w)) <> None /\
             st_codes (w_store w')
               = incr_codes (r_codeId rd) (- r_guestsCount rd)
                            (st_codes (w_store w))
        else st_codes (w_store w') = st_codes (w_store w)
  end.
Proof.
  unfold deleteRSVP, bind, ask, throw, ret, catch, get_rsvp, commit.
  destruct (env_db env); simpl; [|reflexivity].
  destruct (env_reads_ok env); simpl; [|reflexivity].
  destruct (lookup rsvpId (st_rsvps (w_store w))) as [rd|] eqn:Hl;
    simpl; [|reflexivity].
  destruct (env_writes_ok env); simpl; [|reflexivity].
  unfold delete_batch. simpl.
  destruct (String.eqb (r_attendance rd) "Will attend"
            && negb (String.eqb (r_codeId rd) ""))%bool eqn:Hc; simpl.
  - destruct (lookup (r_codeId rd) (st_codes (w_store w))) eqn:Hcode;
      simpl; [|reflexivity].
    split; [reflexivity|]. exists rd. rewrite Hc.
    repeat split; auto; congruence.
  - split; [reflexivity|]. exists rd. rewrite Hc. auto.
Qed.

(** C6 counterexample: an attending RSVP whose code document has been
    deleted cannot be deleted: the [usedGuests] update of the batch fails,
    so the whole batch fails and the record stays. *)
Lemma deleteRSVP_orphan_kept :
  let rd := mkRsvpDoc "AB12CD34" "c9" "Ana" 2 "ana@x.es" "" "Will attend" ""
                      50 in
  let w := mkWorld (mkStore [] [("r1", rd)]) (mkSession None false) [] in
  lookup "r1" (st_rsvps (w_store w)) = Some rd /\
  fst (deleteRSVP "r1" Sample.env_ok w) = Err ErrDeleteFailed /\
  lookup "r1" (st_rsvps (w_store (snd (deleteRSVP "r1" Sample.env_ok w))))
    = Some rd.
Proof. repeat split; reflexivity. Qed.

(** The not-found error [deleteRSVP] raises is replaced by its own
    [catch] with the generic deletion error. *)
Lemma deleteRSVP_missing_reports_generic :
  fst (deleteRSVP "nope" Sample.env_ok Sample.world0) = Err ErrDeleteFailed.
Proof. reflexivity. Qed.

(** ** Claims about [submitRSVP] *)

Lemma checkExisting_world (code : string) (env : Env) (w : World) :
  w_store (snd (checkExistingRSVP code env w)) = w_store w /\
  w_session (snd (checkExistingRSVP code env w)) = w_session w.
Proof.
  unfold checkExistingRSVP, bind, ask, throw, ret, catch, query_rsvps.
  destruct (env_db env); simpl; [|auto].
  destruct (blank_code code); simpl; [auto|].
  destruct (env_reads_ok env); simpl; auto.
Qed.

(** [usedGuests] as the snapshot reads it. *)
Definition used_of (d : CodeDoc) : Z :=
  match cd_usedGuests d with Some u => u | None => 0 end.

Lemma used_of_inc_used (delta : Z) (d : CodeDoc) :
  used_of (inc_used delta d) = used_of d + delta.
Proof. unfold used_of, inc_used; simpl. destruct (cd_usedGuests d); lia. Qed.

Lemma lookup_incr_codes (cid : string) (delta : Z)
    (l : list (string * CodeDoc)) :
  lookup cid (incr_codes cid delta l) = option_map (inc_used delta) (lookup cid l).
Proof.
  unfold incr_codes, assoc_map_at.
  induction l as [|[k d] r IH]; simpl; [reflexivity|].
  destruct (String.eqb cid k) eqn:E; simpl; rewrite E; auto.
Qed.

Lemma lookup_incr_codes_other (cid k : string) (delta : Z)
    (l : list (string * CodeDoc)) :
  k <> cid -> lookup k (incr_codes cid delta l) = lookup k l.
Proof.
  intros Hne. unfold incr_codes, assoc_map_at.
  induction l as [|[k' d] r IH]; simpl; [reflexivity|].
  destruct (String.eqb cid k') eqn:E; simpl.
  - apply String.eqb_eq in E; subst k'.
    destruct (String.eqb_spec k cid); [congruence|]. exact IH.
  - destruct (String.eqb k k'); auto.
Qed.

(** C1: every run of [submitRSVP] either rejects with the store unchanged,
    or resolves after one batch that both adds the RSVP record built from
    the held code and the form and, exactly when the form's attendance is
    ['si'], adds [guestsCount] to that code's [usedGuests] (see
    [incr_codes] and [inc_used]); a non-attending submission leaves the codes
    unchanged.  On success the held code is cleared and the session is marked
    as submitted. *)
Theorem submitRSVP_atomic (fd : FormData) (env : Env) (w : World) :
  match submitRSVP fd env w with
  | (Err _, w') => w_store w' = w_store w
  | (Ok (id, rec), w') =>
      exists cur,
        ss_current (w_session w) = Some cur /\
        id = env_new_id env /\
        rec = build_rsvp cur fd (guests_count_of fd) (env_now env) /\
        st_rsvps (w_store w') = assoc_set id rec (st_rsvps (w_store w)) /\
        (if attending fd
         then lookup (s_id cur) (st_codes (w_store w)) <> None /\
              st_codes (w_store w')
                = incr_codes (s_id cur) (guests_count_of fd)
                             (st_codes (w_store w))
         else st_codes (w_store w') = st_codes (w_store w)) /\
        w_session w' = mkSession None true
  end.
Proof.
  unfold submitRSVP, bind, ask, get_world, throw, ret, catch, commit,
    set_session.
  destruct (env_db env); simpl; [|reflexivity].
  destruct (ss_current (w_session w)) as [cur|] eqn:Hcur; [|reflexivity].
  destruct (fields_error fd); [reflexivity|].
  pose proof (checkExisting_world (s_code cur) env w) as [Hs Hss].
  destruct (checkExistingRSVP (s_code cur) env w) as [[b|e] w1];
    simpl in Hs, Hss; [|exact Hs].
  destruct b; [exact Hs|].
  destruct (guests_count_of fd >? s_remainingGuests cur); [exact Hs|].
  destruct (env_writes_ok env); simpl; [|destruct (message_has_ya_has_enviado ErrStore); exact Hs].
  unfold submit_batch. destruct (attending fd) eqn:Ha; simpl.
  - rewrite Hs.
    destruct (lookup (s_id cur) (st_codes (w_store w))) eqn:Hl; simpl.
    + exists cur. repeat split; auto. congruence.
    + exact Hs.
  - rewrite Hs. exists cur. repeat split; auto.
Qed.

Module SubmitSample.

Definition cur1 : Snapshot := snapshot_of "c1" Sample.code1.

Definition rd0 : RsvpDoc :=
  mkRsvpDoc "AB12CD34" "c1" "Ana" 1 "ana@x.es" "" "Will not attend" "" 50.

(** The code [AB12CD34] is held, nothing submitted yet. *)
Definition world_held : World :=
  mkWorld Sample.store0 (mkSession (Some cur1) false) [].

(** Same, but an RSVP for [AB12CD34] is already on record. *)
Definition world_dup : World :=
  mkWorld (mkStore [("c1", Sample.code1)] [("r0", rd0)])
          (mkSession (Some cur1) false) [].

(** Reads of the store fail, writes go through. *)
Definition env_noread : Env := mkEnv true false true "r1" 100.

End SubmitSample.

(** C2 (as amended): [guestsCount] is [parseInt(formData.guestsCount, 10)
    || 1]; it is at least 1 exactly when the parsed value is [NaN] or not
    negative.  When the earlier checks pass (client present, code held,
    fields filled, no existing RSVP found) and [guestsCount] exceeds the
    held snapshot's [remainingGuests], [submitRSVP] rejects with
    [CapacityExceeded] and the store is unchanged. *)
Theorem submitRSVP_capacity (fd : FormData) (env : Env) (w : World)
    (cur : Snapshot) :
  env_db env = true ->
  ss_current (w_session w) = Some cur ->
  fields_error fd = None ->
  fst (checkExistingRSVP (s_code cur) env w) = Ok false ->
  s_remainingGuests cur < guests_count_of fd ->
  fst (submitRSVP fd env w) = Err (ErrCapacityExceeded (s_remainingGuests cur)) /\
  w_store (snd (submitRSVP fd env w)) = w_store w /\
  (1 <= guests_count_of fd <->
   match parseInt10 (fd_guestsCount fd) with
   | Some z => 0 <= z
   | None => True
   end).
Proof.
  intros Hdb Hcur Hf Hce Hgt.
  assert (Hg : (1 <= guests_count_of fd <->
                match parseInt10 (fd_guestsCount fd) with
                | Some z => 0 <= z
                | None => True
                end)).
  { unfold guests_count_of, js_or.
    destruct (parseInt10 (fd_guestsCount fd)) as [z|];
      [destruct (Z.eqb_spec z 0)|]; split; intros; lia. }
  pose proof (checkExisting_world (s_code cur) env w) as [Hs _].
  assert (E : (guests_count_of fd >? s_remainingGuests cur) = true)
    by (apply Z.gtb_lt; lia).
  assert (Hrun : submitRSVP fd env w
                 = (Err (ErrCapacityExceeded (s_remainingGuests cur)),
                    snd (checkExistingRSVP (s_code cur) env w))).
  { unfold submitRSVP, bind, ask, get_world, throw.
    rewrite Hdb; simpl. rewrite Hcur, Hf.
    destruct (checkExistingRSVP (s_code cur) env w) as [r w1];
      simpl in Hce; subst r.
    rewrite E. reflexivity. }
  rewrite Hrun. simpl. auto.
Qed.

Lemma submitRSVP_capacity_witness :
  fst (submitRSVP (Sample.form_si "3") Sample.env_ok SubmitSample.world_held)
    = Err (ErrCapacityExceeded 2) /\
  w_store (snd (submitRSVP (Sample.form_si "3") Sample.env_ok
                           SubmitSample.world_held))
    = w_store SubmitSample.world_held /\
  (1 <= guests_count_of (Sample.form_si "3") <->
   match parseInt10 (fd_guestsCount (Sample.form_si "3")) with
   | Some z => 0 <= z
   | None => True
   end).
Proof.
  apply (submitRSVP_capacity (Sample.form_si "3") Sample.env_ok
           SubmitSample.world_held SubmitSample.cur1);
    [reflexivity | reflexivity | reflexivity | reflexivity | vm_compute; reflexivity].
Defined.

(** C2 counterexample: for the form value ["-2"] the computed
    [guestsCount] is [-2], not [max(1, -2) = 1]; the submission passes the
    capacity check and drives [usedGuests] to [-2]. *)
Lemma negative_guests_count :
  guests_count_of (Sample.form_si "-2") = -2 /\
  Z.max 1 (-2) = 1 /\
  fst (submitRSVP (Sample.form_si "-2") Sample.env_ok SubmitSample.world_held)
    = Ok ("r1", build_rsvp SubmitSample.cur1 (Sample.form_si "-2") (-2) 100) /\
  option_map used_of
    (lookup "c1" (st_codes (w_store (snd (submitRSVP (Sample.form_si "-2")
                   Sample.env_ok SubmitSample.world_held))))) = Some (-2).
Proof. repeat split; reflexivity. Qed.

(** C3 (as amended): for a held, non-blank code, when the existence query
    succeeds and finds an RSVP with that code, [submitRSVP] rejects with
    the duplicate-submission error and the store is unchanged; when the
    checks pass but the batch commit fails, the rejection is the generic
    [SubmissionFailed], with the store unchanged. *)
Theorem submitRSVP_duplicate (fd : FormData) (env : Env) (w : World)
    (cur : Snapshot) :
  env_db env = true ->
  ss_current (w_session w) = Some cur ->
  fields_error fd = None ->
  blank_code (s_code cur) = false ->
  (env_reads_ok env = true ->
   rsvp_with_code (normalize (s_code cur)) (st_rsvps (w_store w)) = true ->
   fst (submitRSVP fd env w) = Err ErrAlreadySubmitted /\
   w_store (snd (submitRSVP fd env w)) = w_store w) /\
  (fst (checkExistingRSVP (s_code cur) env w) = Ok false ->
   guests_count_of fd <= s_remainingGuests cur ->
   (env_writes_ok env = false \/
    apply_batch (w_store w)
      (submit_batch (env_new_id env)
         (build_rsvp cur fd (guests_count_of fd) (env_now env))
         cur fd (guests_count_of fd)) = None) ->
   fst (submitRSVP fd env w) = Err ErrSubmissionFailed /\
   w_store (snd (submitRSVP fd env w)) = w_store w).
Proof.
  intros Hdb Hcur Hf Hb.
  pose proof (checkExisting_world (s_code cur) env w) as [Hs _].
  split.
  - intros Hr Hex.
    assert (Hce : checkExistingRSVP (s_code cur) env w
                  = (Ok true, log_access (AQueryRsvps (normalize (s_code cur))) w)).
    { unfold checkExistingRSVP, bind, ask, catch, query_rsvps, ret.
      rewrite Hdb; simpl. rewrite Hb; simpl. rewrite Hr, Hex. reflexivity. }
    assert (Hrun : submitRSVP fd env w
                   = (Err ErrAlreadySubmitted,
                      log_access (AQueryRsvps (normalize (s_code cur))) w)).
    { unfold submitRSVP, bind, ask, get_world, throw.
      rewrite Hdb; simpl. rewrite Hcur, Hf, Hce. reflexivity. }
    rewrite Hrun. simpl. auto.
  - intros Hce Hle Hfail.
    assert (E : (guests_count_of fd >? s_remainingGuests cur) = false)
      by (rewrite Z.gtb_ltb; apply Z.ltb_ge; lia).
    set (w1 := snd (checkExistingRSVP (s_code cur) env w)) in Hs.
    assert (Hrun : submitRSVP fd env w
                   = (Err ErrSubmissionFailed,
                      log_access
                        (ACommit (submit_batch (env_new_id env)
                           (build_rsvp cur fd (guests_count_of fd) (env_now env))
                           cur fd (guests_count_of fd))) w1)).
    { unfold submitRSVP, bind, ask, get_world, throw, catch, commit.
      rewrite Hdb; simpl. rewrite Hcur, Hf.
      subst w1.
      destruct (checkExistingRSVP (s_code cur) env w) as [r w1];
        simpl in Hce, Hs |- *; subst r.
      rewrite E. rewrite <- Hs in Hfail.
      destruct Hfail as [Hw | Hn].
      - rewrite Hw. reflexivity.
      - unfold submit_batch in Hn; simpl in Hn. rewrite Hn. destruct (env_writes_ok env); reflexivity. }
    rewrite Hrun. simpl. auto.
Qed.

Lemma submitRSVP_duplicate_witness :
  fst (submitRSVP (Sample.form_si "1") Sample.env_ok SubmitSample.world_dup)
    = Err ErrAlreadySubmitted /\
  w_store (snd (submitRSVP (Sample.form_si "1") Sample.env_ok
                           SubmitSample.world_dup))
    = w_store SubmitSample.world_dup.
Proof.
  apply (proj1 (submitRSVP_duplicate (Sample.form_si "1") Sample.env_ok
                  SubmitSample.world_dup SubmitSample.cur1
                  eq_refl eq_refl eq_refl eq_refl));
    reflexivity.
Defined.

(** C3 counterexample: when the existence query fails, [checkExistingRSVP]
    answers [false], so a second RSVP for a code that already has one is
    committed instead of being rejected as a duplicate. *)
Lemma duplicate_when_query_fails :
  rsvp_with_code "AB12CD34" (st_rsvps (w_store SubmitSample.world_dup)) = true /\
  fst (submitRSVP (Sample.form_si "1") SubmitSample.env_noread
                  SubmitSample.world_dup)
    = Ok ("r1", build_rsvp SubmitSample.cur1 (Sample.form_si "1") 1 100) /\
  length (filter (fun p => String.eqb (r_code (snd p)) "AB12CD34")
            (st_rsvps (w_store (snd (submitRSVP (Sample.form_si "1")
               SubmitSample.env_noread SubmitSample.world_dup))))) = 2%nat.
Proof. repeat split; reflexivity. Qed.

(** * Further properties of the code *)

Open Scope list_scope.

(** ** Normalisation of codes *)

Definition trim_list (l : list ascii) : list ascii :=
  rev (drop_ws (rev (drop_ws l))).

Lemma drop_ws_suffix (l : list ascii) : exists p, l = p ++ drop_ws l.
Proof.
  induction l as [|c r [p Hp]]; simpl; [exists []; reflexivity|].
  destruct (is_ws c); [exists (c :: p); simpl; congruence | exists []; reflexivity].
Qed.

Lemma drop_ws_head (l r : list ascii) (x : ascii) :
  drop_ws l = x :: r -> is_ws x = false.
Proof.
  induction l as [|c l' IH]; simpl; [discriminate|].
  destruct (is_ws c) eqn:E; [exact IH|]. intros H; injection H as <- _. exact E.
Qed.

Lemma drop_ws_idem (l : list ascii) : drop_ws (drop_ws l) = drop_ws l.
Proof.
  destruct (drop_ws l) as [|x r] eqn:E; [reflexivity|].
  simpl. rewrite (drop_ws_head l r x E). reflexivity.
Qed.

Lemma trim_list_idem (l : list ascii) : trim_list (trim_list l) = trim_list l.
Proof.
  unfold trim_list.
  set (m := drop_ws l).
  assert (Hm : forall x r, m = x :: r -> is_ws x = false)
    by (intros x r; apply drop_ws_head).
  set (k := drop_ws (rev m)).
  destruct (drop_ws_suffix (rev m)) as [p Hp]. fold k in Hp.
  assert (Hmk : m = rev k ++ rev p)
    by (rewrite <- (rev_involutive m), Hp, rev_app_distr; reflexivity).
  assert (Hd : drop_ws (rev k) = rev k).
  { destruct (rev k) as [|x r] eqn:E; [reflexivity|]. simpl.
    rewrite (Hm x (r ++ rev p)) by (rewrite Hmk; reflexivity). reflexivity. }
  rewrite Hd, rev_involutive. subst k. rewrite drop_ws_idem. reflexivity.
Qed.

Section FlatMapWs.

(** A per-character map that keeps white space as it is and sends any
    other character to a non-empty run of non-white-space characters. *)
Variable f : ascii -> list ascii.
Hypothesis f_ws : forall c, is_ws c = true -> f c = [c].
Hypothesis f_nws : forall c, is_ws c = false ->
  exists x t, f c = x :: t /\ is_ws x = false.

Lemma drop_ws_flat_map (l : list ascii) :
  drop_ws (flat_map f l) = flat_map f (drop_ws l).
Proof.
  induction l as [|c r IH]; simpl; [reflexivity|].
  destruct (is_ws c) eqn:E.
  - rewrite (f_ws c E). simpl. rewrite E. exact IH.
  - destruct (f_nws c E) as (x & t & Hx & Hw). simpl. rewrite Hx. simpl.
    rewrite Hw. reflexivity.
Qed.

End FlatMapWs.

Lemma rev_flat_map {A B} (f : A -> list B) (l : list A) :
  rev (flat_map f l) = flat_map (fun c => rev (f c)) (rev l).
Proof.
  induction l as [|c r IH]; simpl; [reflexivity|].
  rewrite rev_app_distr, IH, flat_map_app. simpl. rewrite app_nil_r.
  reflexivity.
Qed.

Lemma upper_char_ws (c : ascii) : is_ws c = true -> upper_char c = [c].
Proof.
  destruct c as [[] [] [] [] [] [] [] []];
    (discriminate || (intros _; reflexivity)).
Qed.

Lemma upper_char_nws_bool (c : ascii) :
  is_ws c = false ->
  match upper_char c with
  | [] => false
  | x :: t => negb (is_ws x) && forallb (fun y => negb (is_ws y)) t
  end = true.
Proof.
  destruct c as [[] [] [] [] [] [] [] []];
    (discriminate || (intros _; reflexivity)).
Qed.

Lemma upper_char_nws (c : ascii) : is_ws c = false ->
  exists x t, upper_char c = x :: t /\ is_ws x = false.
Proof.
  intros H. pose proof (upper_char_nws_bool c H) as Hb.
  destruct (upper_char c) as [|x t]; [discriminate|].
  apply andb_prop in Hb as [Hx _]. exists x, t. split; [reflexivity|].
  apply negb_true_iff. exact Hx.
Qed.

Lemma upper_char_nws_rev (c : ascii) : is_ws c = false ->
  exists x t, rev (upper_char c) = x :: t /\ is_ws x = false.
Proof.
  intros H. pose proof (upper_char_nws_bool c H) as Hb.
  destruct (upper_char c) as [|x t] eqn:Eu; [discriminate|].
  apply andb_prop in Hb as [Hx Ht].
  destruct (rev t) as [|y u] eqn:Er.
  - exists x, []. simpl. rewrite Er. split; [reflexivity|].
    apply negb_true_iff. exact Hx.
  - exists y, (u ++ [x]). simpl. rewrite Er. split; [reflexivity|].
    assert (Hy : In y t) by (apply in_rev; rewrite Er; left; reflexivity).
    rewrite forallb_forall in Ht. apply negb_true_iff. exact (Ht y Hy).
Qed.

Lemma upper_char_idem (c : ascii) :
  flat_map upper_char (upper_char c) = upper_char c.
Proof. destruct c as [[] [] [] [] [] [] [] []]; reflexivity. Qed.

Lemma flat_map_upper_idem (l : list ascii) :
  flat_map upper_char (flat_map upper_char l) = flat_map upper_char l.
Proof.
  induction l as [|c r IH]; simpl; [reflexivity|].
  rewrite flat_map_app, upper_char_idem, IH. reflexivity.
Qed.

Lemma trim_list_flat_upper (l : list ascii) :
  trim_list (flat_map upper_char l) = flat_map upper_char (trim_list l).
Proof.
  unfold trim_list.
  rewrite (drop_ws_flat_map upper_char upper_char_ws upper_char_nws).
  rewrite rev_flat_map.
  rewrite (drop_ws_flat_map (fun c => rev (upper_char c))
             (fun c H => f_equal (@rev ascii) (upper_char_ws c H))
             upper_char_nws_rev).
  rewrite rev_flat_map.
  apply flat_map_ext. intros c. apply rev_involutive.
Qed.

Lemma normalize_list (s : string) :
  list_ascii_of_string (normalize s)
  = flat_map upper_char (trim_list (list_ascii_of_string s)).
Proof.
  unfold normalize, toUpperCase, trim.
  rewrite !list_ascii_of_string_of_list_ascii. reflexivity.
Qed.

Lemma string_eqb_empty (l : list ascii) :
  String.eqb (string_of_list_ascii l) "" = match l with [] => true | _ => false end.
Proof. destruct l; reflexivity. Qed.

Lemma blank_code_trim_list (s : string) :
  blank_code s
  = match trim_list (list_ascii_of_string s) with [] => true | _ => false end.
Proof.
  unfold blank_code, trim. rewrite string_eqb_empty.
  destruct s; reflexivity.
Qed.

Lemma upper_char_nonempty (c : ascii) : upper_char c <> [].
Proof.
  unfold upper_char. destruct (_ || _)%bool; [discriminate|].
  destruct (Nat.eqb _ _); discriminate.
Qed.

Lemma normalize_idem (s : string) : normalize (normalize s) = normalize s.
Proof.
  rewrite <- (string_of_list_ascii_of_string (normalize (normalize s))).
  rewrite normalize_list, normalize_list, trim_list_flat_upper, trim_list_idem,
          flat_map_upper_idem.
  rewrite <- normalize_list. apply string_of_list_ascii_of_string.
Qed.

Lemma blank_code_normalize (s : string) :
  blank_code (normalize s) = blank_code s.
Proof.
  rewrite !blank_code_trim_list, normalize_list, trim_list_flat_upper,
          trim_list_idem.
  destruct (trim_list (list_ascii_of_string s)) as [|c r]; [reflexivity|].
  simpl. pose proof (upper_char_nonempty c).
  destruct (upper_char c); [congruence|reflexivity].
Qed.

(** Normalising a code twice changes nothing, on the strings whose
    upper-case form a byte string can hold. *)
Theorem normalize_idempotent (s : string) :
  forallb upper_in_latin1 (list_ascii_of_string s) = true ->
  normalize (normalize s) = normalize s.
Proof. intros _. apply normalize_idem. Qed.

Lemma normalize_idempotent_witness :
  forallb upper_in_latin1 (list_ascii_of_string (string_of_list_ascii [" "; "a"; "223"; "241"; "o"; " "]%char)) = true /\
  normalize (normalize (string_of_list_ascii [" "; "a"; "223"; "241"; "o"; " "]%char)) = normalize (string_of_list_ascii [" "; "a"; "223"; "241"; "o"; " "]%char).
Proof.
  split; [reflexivity|]. apply normalize_idempotent. reflexivity.
Defined.

(** Validation (both modes) and the existing-RSVP check behave on any input
    (whose upper-case form a byte string can hold) exactly as on its
    trimmed, upper-cased form: same result, same store accesses, same
    final state. *)
Theorem validation_normalize_invariant (s : string) (env : Env) (w : World) :
  forallb upper_in_latin1 (list_ascii_of_string s) = true ->
  validateCode (normalize s) env w = validateCode s env w /\
  validateCodeForAccess (normalize s) env w = validateCodeForAccess s env w /\
  checkExistingRSVP (normalize s) env w = checkExistingRSVP s env w.
Proof.
  intros _.
  assert (Hf : fetchCodeData (normalize s) = fetchCodeData s).
  { unfold fetchCodeData. rewrite blank_code_normalize, normalize_idem.
    reflexivity. }
  unfold validateCode, validateCodeForAccess. rewrite Hf.
  split; [reflexivity|]. split; [reflexivity|].
  unfold checkExistingRSVP.
  rewrite blank_code_normalize, normalize_idem. reflexivity.
Qed.

Lemma validation_normalize_invariant_witness :
  forallb upper_in_latin1 (list_ascii_of_string (string_of_list_ascii ["a"; "241"; " "; "1"]%char)) = true /\
  validateCode (normalize (string_of_list_ascii ["a"; "241"; " "; "1"]%char)) Sample.env_ok Sample.world0
    = validateCode (string_of_list_ascii ["a"; "241"; " "; "1"]%char) Sample.env_ok Sample.world0 /\
  validateCodeForAccess (normalize (string_of_list_ascii ["a"; "241"; " "; "1"]%char)) Sample.env_ok Sample.world0
    = validateCodeForAccess (string_of_list_ascii ["a"; "241"; " "; "1"]%char) Sample.env_ok Sample.world0 /\
  checkExistingRSVP (normalize (string_of_list_ascii ["a"; "241"; " "; "1"]%char)) Sample.env_ok Sample.world0
    = checkExistingRSVP (string_of_list_ascii ["a"; "241"; " "; "1"]%char) Sample.env_ok Sample.world0.
Proof.
  split; [reflexivity|]. apply validation_normalize_invariant. reflexivity.
Defined.

(** The code of a validated snapshot is the trimmed, upper-cased input, so
    (for an input whose upper-case form a byte string can hold) it is
    itself in normal form and not blank. *)
Theorem snapshot_code_normalized (code : string) (env : Env) (w : World)
    (s : Snapshot) :
  forallb upper_in_latin1 (list_ascii_of_string code) = true ->
  fst (fetchCodeData code env w) = Ok s ->
  s_code s = normalize code /\ normalize (s_code s) = s_code s /\
  blank_code (s_code s) = false.
Proof.
  intros _ H. apply fetchCodeData_ok in H as (_ & Hb & d & Hf & _ & Hs).
  assert (Hc : cd_code d = normalize code).
  { clear Hs. induction (st_codes (w_store w)) as [|[i d'] r IH];
      simpl in Hf; [discriminate|].
    destruct (String.eqb_spec (cd_code d') (normalize code)) as [E|E];
      [injection Hf as _ <-; exact E | exact (IH Hf)]. }
  assert (Hsc : s_code s = normalize code) by (rewrite Hs; exact Hc).
  rewrite Hsc. split; [reflexivity|].
  split; [apply normalize_idem|].
  rewrite blank_code_normalize. exact Hb.
Qed.

Lemma snapshot_code_normalized_witness :
  fst (fetchCodeData " ab12cd34 " Sample.env_ok Sample.world0)
    = Ok (snapshot_of "c1" Sample.code1) /\
  s_code (snapshot_of "c1" Sample.code1) = normalize " ab12cd34 " /\
  normalize (s_code (snapshot_of "c1" Sample.code1))
    = s_code (snapshot_of "c1" Sample.code1) /\
  blank_code (s_code (snapshot_of "c1" Sample.code1)) = false.
Proof.
  assert (H : fst (fetchCodeData " ab12cd34 " Sample.env_ok Sample.world0)
              = Ok (snapshot_of "c1" Sample.code1)) by reflexivity.
  split; [exact H|].
  exact (snapshot_code_normalized " ab12cd34 " _ _ _ eq_refl H).
Defined.

(** ** [isValidEmail] *)

Lemma split_at_sign_app (a r : list ascii) :
  forallb email_char a = true ->
  split_at_sign (a ++ "@"%char :: r) = Some (a, r).
Proof.
  induction a as [|c a' IH]; simpl; [reflexivity|].
  intros H. apply andb_prop in H as [Hc Ha].
  unfold email_char in Hc. apply andb_prop in Hc as [_ Hc].
  apply negb_true_iff in Hc. rewrite Hc, (IH Ha). reflexivity.
Qed.

Lemma split_at_sign_some (l a r : list ascii) :
  split_at_sign l = Some (a, r) -> l = a ++ "@"%char :: r.
Proof.
  revert a. induction l as [|c l' IH]; simpl; intros a; [discriminate|].
  destruct (Ascii.eqb_spec c "@"%char) as [->|_].
  - intros H; injection H as <- <-. reflexivity.
  - destruct (split_at_sign l') as [[a' b']|] eqn:E; [|discriminate].
    intros H; injection H as <- <-. simpl. f_equal. apply IH. congruence.
Qed.

Lemma dot_not_last_spec (l : list ascii) :
  dot_not_last l = true <->
  exists u v, v <> [] /\ l = u ++ "."%char :: v.
Proof.
  induction l as [|c r IH]; simpl.
  - split; [discriminate|]. intros (u & v & _ & H). destruct u; discriminate.
  - destruct r as [|c' r'] eqn:Er.
    + split; [discriminate|]. intros (u & v & Hv & H).
      destruct u as [|x [|y u]]; simpl in H; injection H; intros; subst;
        try congruence; destruct u; discriminate.
    + rewrite <- Er in *. split.
      * intros H. apply orb_prop in H as [H|H].
        -- apply Ascii.eqb_eq in H. subst c. exists [], r.
           split; [subst r; discriminate|reflexivity].
        -- apply IH in H as (u & v & Hv & Hr).
           exists (c :: u), v. split; [exact Hv|]. rewrite Hr. reflexivity.
      * intros (u & v & Hv & H). destruct u as [|x u]; simpl in H;
          injection H as Hc Hr.
        -- subst c. reflexivity.
        -- apply orb_true_iff. right. apply IH. exists u, v. auto.
Qed.

(** [isValidEmail] accepts exactly the strings [a@b.c] with [a], [b], [c]
    non-empty and made of characters that are neither white space nor
    ['@'] (the [.] may be any dot of the domain part but the last
    character). *)
Theorem isValidEmail_spec (email : string) :
  isValidEmail email = true <->
  exists a b c,
    a <> [] /\ b <> [] /\ c <> [] /\
    forallb email_char (a ++ b ++ c) = true /\
    list_ascii_of_string email = a ++ "@"%char :: b ++ "."%char :: c.
Proof.
  unfold isValidEmail. split.
  - destruct (split_at_sign (list_ascii_of_string email)) as [[a rest]|] eqn:E;
      [|discriminate].
    apply split_at_sign_some in E.
    destruct a as [|x a']; [discriminate|].
    destruct rest as [|y rest']; [discriminate|].
    intros H. apply andb_prop in H as [H Hd]. apply andb_prop in H as [Ha Hr].
    apply dot_not_last_spec in Hd as (u & v & Hv & Hrest).
    exists (x :: a'), (y :: u), v.
    split; [discriminate|]. split; [discriminate|]. split; [exact Hv|].
    split.
    + rewrite !forallb_app, Ha. simpl. subst rest'. simpl in Hr.
      rewrite forallb_app in Hr. simpl in Hr.
      apply andb_prop in Hr as [Hy Hr]. apply andb_prop in Hr as [Hu Hr].
      rewrite Hy, Hu, Hr. reflexivity.
    + rewrite E, Hrest. reflexivity.
  - intros (a & b & c & Ha & Hb & Hc & Hall & Hl).
    rewrite !forallb_app in Hall. apply andb_prop in Hall as [Hfa Hall].
    apply andb_prop in Hall as [Hfb Hfc].
    rewrite Hl, (split_at_sign_app a _ Hfa).
    destruct a as [|x a']; [congruence|].
    destruct b as [|y b']; [congruence|]. simpl.
    simpl in Hfa. rewrite Hfa. simpl in Hfb. apply andb_prop in Hfb as [Hy Hb'].
    rewrite Hy, forallb_app, Hb'. simpl. rewrite Hfc. simpl.
    apply dot_not_last_spec. exists b', c. auto.
Qed.

(** ** [updateCountdown] *)

(** Before the wedding the countdown shows days, hours below 24, minutes
    and seconds below 60, which add up to the remaining time truncated to
    the second. *)
Theorem countdown_parts_spec (diff : Z) :
  0 < diff ->
  match countdown_parts diff with
  | (d, h, m, s) =>
      0 <= d /\ 0 <= h < 24 /\ 0 <= m < 60 /\ 0 <= s < 60 /\
      d * 86400000 + h * 3600000 + m * 60000 + s * 1000 = diff - diff mod 1000
  end.
Proof.
  intros Hpos.
  assert (Hc : countdown_parts diff
               = (diff / 86400000, (diff mod 86400000) / 3600000,
                  (diff mod 3600000) / 60000, (diff mod 60000) / 1000)).
  { unfold countdown_parts.
    destruct (Z.leb_spec diff 0); [lia | reflexivity]. }
  rewrite Hc.
  assert (A2 : diff mod 3600000 = (diff mod 86400000) mod 3600000)
    by (symmetry; apply Z.mod_mod_divide; exists 24; reflexivity).
  assert (A3 : diff mod 60000 = (diff mod 3600000) mod 60000)
    by (symmetry; apply Z.mod_mod_divide; exists 60; reflexivity).
  assert (A4 : diff mod 1000 = (diff mod 60000) mod 1000)
    by (symmetry; apply Z.mod_mod_divide; exists 60; reflexivity).
  pose proof (Z.div_mod diff 86400000 ltac:(lia)) as E1.
  pose proof (Z.mod_pos_bound diff 86400000 ltac:(lia)) as B1.
  pose proof (Z.div_mod (diff mod 86400000) 3600000 ltac:(lia)) as E2.
  pose proof (Z.mod_pos_bound (diff mod 86400000) 3600000 ltac:(lia)) as B2.
  pose proof (Z.div_mod (diff mod 3600000) 60000 ltac:(lia)) as E3.
  pose proof (Z.mod_pos_bound (diff mod 3600000) 60000 ltac:(lia)) as B3.
  pose proof (Z.div_mod (diff mod 60000) 1000 ltac:(lia)) as E4.
  pose proof (Z.mod_pos_bound (diff mod 60000) 1000 ltac:(lia)) as B4.
  pose proof (Z.div_pos diff 86400000 ltac:(lia) ltac:(lia)) as P1.
  rewrite <- A2 in E2, B2. rewrite <- A3 in E3, B3. rewrite <- A4 in E4, B4.
  set (q1 := diff / 86400000) in *.
  set (r1 := diff mod 86400000) in *.
  set (q2 := r1 / 3600000) in *.
  set (r2 := diff mod 3600000) in *.
  set (q3 := r2 / 60000) in *.
  set (r3 := diff mod 60000) in *.
  set (q4 := r3 / 1000) in *.
  set (r4 := diff mod 1000) in *.
  clearbody q1 r1 q2 r2 q3 r3 q4 r4.
  lia.
Qed.

Lemma countdown_parts_spec_witness :
  0 < 90061001 /\
  match countdown_parts 90061001 with
  | (d, h, m, s) =>
      0 <= d /\ 0 <= h < 24 /\ 0 <= m < 60 /\ 0 <= s < 60 /\
      d * 86400000 + h * 3600000 + m * 60000 + s * 1000
        = 90061001 - 90061001 mod 1000
  end.
Proof. split; [lia | apply countdown_parts_spec; lia]. Defined.

(** ** Association-list facts *)

Section AssocFacts.
Context {V : Type}.

Lemma lookup_assoc_set_same (k : string) (v : V) (l : list (string * V)) :
  lookup k (assoc_set k v l) = Some v.
Proof.
  induction l as [|[k' v'] r IH]; simpl.
  - rewrite String.eqb_refl. reflexivity.
  - destruct (String.eqb_spec k k') as [->|Hne]; simpl.
    + rewrite String.eqb_refl. reflexivity.
    + destruct (String.eqb_spec k k'); [congruence|exact IH].
Qed.

Lemma lookup_assoc_set_other (k j : string) (v : V) (l : list (string * V)) :
  j <> k -> lookup j (assoc_set k v l) = lookup j l.
Proof.
  intros Hjk. induction l as [|[k' v'] r IH]; simpl.
  - destruct (String.eqb_spec j k); [congruence|reflexivity].
  - destruct (String.eqb_spec k k') as [->|Hne]; simpl; [|rewrite IH; reflexivity].
    destruct (String.eqb_spec j k'); [congruence|reflexivity].
Qed.

Lemma assoc_set_fresh (k : string) (v : V) (l : list (string * V)) :
  lookup k l = None -> assoc_set k v l = l ++ [(k, v)].
Proof.
  induction l as [|[k' v'] r IH]; simpl; [reflexivity|].
  destruct (String.eqb k k'); [discriminate|]. intros H. rewrite (IH H).
  reflexivity.
Qed.

Lemma assoc_remove_fresh (k : string) (l : list (string * V)) :
  lookup k l = None -> assoc_remove k l = l.
Proof.
  induction l as [|[k' v'] r IH]; simpl; [reflexivity|].
  destruct (String.eqb k k'); [discriminate|]. intros H. rewrite (IH H).
  reflexivity.
Qed.

Lemma assoc_remove_app_single (k : string) (v : V) (l : list (string * V)) :
  assoc_remove k (l ++ [(k, v)]) = assoc_remove k l.
Proof.
  induction l as [|[k' v'] r IH]; simpl.
  - rewrite String.eqb_refl. reflexivity.
  - destruct (String.eqb k k'); rewrite IH; reflexivity.
Qed.

Lemma lookup_assoc_remove (k j : string) (l : list (string * V)) :
  lookup j (assoc_remove k l) = if String.eqb j k then None else lookup j l.
Proof.
  induction l as [|[k' v'] r IH]; simpl.
  - destruct (String.eqb j k); reflexivity.
  - destruct (String.eqb_spec k k') as [->|Hne]; simpl.
    + rewrite IH. destruct (String.eqb j k'); reflexivity.
    + rewrite IH. destruct (String.eqb_spec j k) as [->|Hjk].
      * destruct (String.eqb_spec k k'); [congruence|reflexivity].
      * reflexivity.
Qed.

Lemma lookup_assoc_map_at_some (k : string) (f : V -> V)
    (l : list (string * V)) :
  lookup k (assoc_map_at k f l) = option_map f (lookup k l).
Proof.
  unfold assoc_map_at.
  induction l as [|[k' v'] r IH]; simpl; [reflexivity|].
  destruct (String.eqb k k') eqn:E; simpl; rewrite E; auto.
Qed.

Lemma lookup_assoc_map_at_none (k : string) (f : V -> V)
    (l : list (string * V)) :
  lookup k (assoc_map_at k f l) = None <-> lookup k l = None.
Proof.
  rewrite lookup_assoc_map_at_some. destruct (lookup k l); simpl; split;
    congruence.
Qed.

End AssocFacts.

Lemma find_code_lookup (c k : string) (d : CodeDoc) (l : list (string * CodeDoc)) :
  find_code c l = Some (k, d) -> lookup k l <> None.
Proof.
  induction l as [|[k' d'] r IH]; simpl; [discriminate|].
  destruct (String.eqb (cd_code d') c).
  - intros H; injection H as <- <-. rewrite String.eqb_refl. discriminate.
  - intros H. destruct (String.eqb k k'); [discriminate|]. exact (IH H).
Qed.

Lemma find_code_map_at (c k : string) (d : CodeDoc) (f : CodeDoc -> CodeDoc)
    (l : list (string * CodeDoc)) :
  (forall x, cd_code (f x) = cd_code x) ->
  find_code c l = Some (k, d) ->
  find_code c (assoc_map_at k f l) = Some (k, f d).
Proof.
  intros Hf. unfold assoc_map_at.
  induction l as [|[k' d'] r IH]; simpl; [discriminate|].
  destruct (String.eqb_spec (cd_code d') c) as [Ec|Ec].
  - intros H; injection H as <- <-. rewrite String.eqb_refl. simpl.
    rewrite Hf, Ec, String.eqb_refl. reflexivity.
  - intros H. destruct (String.eqb k k'); simpl.
    + rewrite Hf. destruct (String.eqb_spec (cd_code d') c); [congruence|].
      exact (IH H).
    + destruct (String.eqb_spec (cd_code d') c); [congruence|]. exact (IH H).
Qed.

Lemma find_code_app_single (c k : string) (d : CodeDoc)
    (l : list (string * CodeDoc)) :
  find_code c l = None -> cd_code d = c ->
  find_code c (l ++ [(k, d)]) = Some (k, d).
Proof.
  intros Hn Hc. induction l as [|[k' d'] r IH]; simpl in *.
  - rewrite Hc, String.eqb_refl. reflexivity.
  - destruct (String.eqb (cd_code d') c); [discriminate|]. exact (IH Hn).
Qed.

(** ** Admin operations on codes *)

(** [createCode] either rejects leaving the store unchanged, or, after
    finding no code with the same normalised value, stores under the new
    id a document with the trimmed, upper-cased code, [usedGuests = 0],
    [maxGuests = parseInt(maxGuests) || 1] and [isActive] unless it was
    explicitly [false]; the RSVPs are untouched. *)
Theorem createCode_spec (codeData : NewCode) (env : Env) (w : World) :
  match createCode codeData env w with
  | (inl _, w') => w_store w' = w_store w
  | (inr (id, d), w') =>
      js_blank (nc_code codeData) = false /\
      find_code (normalize (opt_set (nc_code codeData) ""))
                (st_codes (w_store w)) = None /\
      id = env_new_id env /\
      d = new_code_doc codeData (normalize (opt_set (nc_code codeData) ""))
                       (env_now env) /\
      cd_code d = normalize (opt_set (nc_code codeData) "") /\
      cd_usedGuests d = Some 0 /\
      st_codes (w_store w') = assoc_set id d (st_codes (w_store w)) /\
      st_rsvps (w_store w') = st_rsvps (w_store w)
  end.
Proof.
  unfold createCode, query_codes.
  destruct (env_db env); simpl; [|reflexivity].
  destruct (js_blank (nc_code codeData)) eqn:Hb; simpl; [reflexivity|].
  destruct (env_reads_ok env); simpl; [|reflexivity].
  destruct (find_code _ _) as [p|] eqn:Hf; [reflexivity|].
  destruct (env_writes_ok env); simpl; [|reflexivity].
  repeat split; auto.
Qed.

(** A code just created (under a fresh id, and not explicitly inactive)
    is accepted by access validation of the very string the admin typed:
    the snapshot has [usedGuests = 0] and [remainingGuests = max(0,
    maxGuests)]. *)
Theorem createCode_then_validate (codeData : NewCode) (env : Env) (w : World)
    (id : string) (d : CodeDoc) (w' : World) :
  createCode codeData env w = (inr (id, d), w') ->
  lookup id (st_codes (w_store w)) = None ->
  env_reads_ok env = true ->
  nc_isActive codeData <> Some false ->
  fst (validateCodeForAccess (opt_set (nc_code codeData) "") env w')
    = Ok (snapshot_of id d) /\
  s_usedGuests (snapshot_of id d) = 0 /\
  s_remainingGuests (snapshot_of id d)
    = Z.max 0 (s_maxGuests (snapshot_of id d)).
Proof.
  intros Hc Hfresh Hr Ha.
  pose proof (createCode_spec codeData env w) as Hs. rewrite Hc in Hs.
  destruct Hs as (Hb & Hnone & Hid & Hd & Hcode & Hused & Hcodes & _).
  assert (Hdb : env_db env = true).
  { unfold createCode in Hc. destruct (env_db env); [reflexivity|discriminate]. }
  assert (Hact : cd_isActive d = true).
  { rewrite Hd. simpl. destruct (nc_isActive codeData) as [[]|]; congruence. }
  assert (Hb' : blank_code (opt_set (nc_code codeData) "") = false).
  { destruct (nc_code codeData); [exact Hb|discriminate]. }
  split.
  - apply (fetchCodeData_found _ env w' id d Hdb Hr Hb'); [|exact Hact].
    rewrite Hcodes, (assoc_set_fresh _ _ _ Hfresh).
    apply find_code_app_single; assumption.
  - unfold snapshot_of; simpl. rewrite Hused. simpl. split; [reflexivity|].
    lia.
Qed.

Lemma createCode_then_validate_witness :
  let nc := mkNewCode (Some " new1 ") (Some "Tia") (Some "3") None in
  createCode nc Sample.env_ok Sample.world0
    = (inr ("r1", new_code_doc nc "NEW1" 100),
       snd (createCode nc Sample.env_ok Sample.world0)) /\
  fst (validateCodeForAccess " new1 " Sample.env_ok
         (snd (createCode nc Sample.env_ok Sample.world0)))
    = Ok (snapshot_of "r1" (new_code_doc nc "NEW1" 100)) /\
  s_usedGuests (snapshot_of "r1" (new_code_doc nc "NEW1" 100)) = 0 /\
  s_remainingGuests (snapshot_of "r1" (new_code_doc nc "NEW1" 100))
    = Z.max 0 (s_maxGuests (snapshot_of "r1" (new_code_doc nc "NEW1" 100))).
Proof.
  intros nc.
  assert (H : createCode nc Sample.env_ok Sample.world0
              = (inr ("r1", new_code_doc nc "NEW1" 100),
                 snd (createCode nc Sample.env_ok Sample.world0)))
    by reflexivity.
  split; [exact H|].
  exact (createCode_then_validate nc Sample.env_ok Sample.world0 _ _ _ H
           eq_refl eq_refl ltac:(discriminate)).
Defined.

(** [deleteCode] removes exactly the document [codeId] (or nothing, when
    it rejects); the other codes and all RSVPs are left as they are, so
    RSVPs of a deleted code remain. *)
Theorem deleteCode_frame (codeId : string) (env : Env) (w : World) :
  match deleteCode codeId env w with
  | (inl _, w') => w_store w' = w_store w
  | (inr _, w') =>
      lookup codeId (st_codes (w_store w')) = None /\
      (forall k, k <> codeId ->
         lookup k (st_codes (w_store w')) = lookup k (st_codes (w_store w))) /\
      st_rsvps (w_store w') = st_rsvps (w_store w)
  end.
Proof.
  unfold deleteCode.
  destruct (env_db env); simpl; [|reflexivity].
  destruct (env_writes_ok env); simpl; [|reflexivity].
  split; [rewrite lookup_assoc_remove, String.eqb_refl; reflexivity|].
  split; [|reflexivity].
  intros k Hk. rewrite lookup_assoc_remove.
  destruct (String.eqb_spec k codeId); [congruence|reflexivity].
Qed.

(** Deactivating a code with [toggleCodeStatus] (when the store is
    reachable) succeeds, and from then on validating it fails with
    [Inactive] in both modes, whatever its remaining capacity. *)
Theorem toggle_off_then_inactive (x codeId : string) (d : CodeDoc)
    (env : Env) (w : World) :
  env_db env = true -> env_reads_ok env = true -> env_writes_ok env = true ->
  blank_code x = false ->
  find_code (normalize x) (st_codes (w_store w)) = Some (codeId, d) ->
  let w' := snd (toggleCodeStatus codeId false env w) in
  fst (toggleCodeStatus codeId false env w) = Ok true /\
  fst (validateCode x env w') = Err ErrCodeInactive /\
  fst (validateCodeForAccess x env w') = Err ErrCodeInactive.
Proof.
  intros Hdb Hr Hw Hb Hf.
  pose proof (find_code_lookup _ _ _ _ Hf) as Hl.
  set (p := {| p_assignedTo := None; p_maxGuests := None;
               p_isActive := Some false; p_updatedAt := Some (env_now env) |}).
  assert (Ht : toggleCodeStatus codeId false env w
               = (Ok true,
                  mkWorld (mkStore (assoc_map_at codeId (apply_patch p)
                                      (st_codes (w_store w)))
                                   (st_rsvps (w_store w)))
                          (w_session w) (AUpdateCode codeId p :: w_log w))).
  { unfold toggleCodeStatus, updateCode, bind, ask, catch, update_code, ret.
    rewrite Hdb; simpl. rewrite Hw.
    destruct (lookup codeId (st_codes (w_store w))); [reflexivity|congruence]. }
  rewrite Ht. simpl.
  assert (Hf' : find_code (normalize x)
                  (assoc_map_at codeId (apply_patch p) (st_codes (w_store w)))
                = Some (codeId, apply_patch p d))
    by (apply find_code_map_at; [reflexivity|exact Hf]).
  assert (Hv : fetchCodeData x env
                 (mkWorld (mkStore (assoc_map_at codeId (apply_patch p)
                                      (st_codes (w_store w)))
                                   (st_rsvps (w_store w)))
                          (w_session w) (AUpdateCode codeId p :: w_log w))
               = (Err ErrCodeInactive,
                  log_access (AQueryCodes (normalize x))
                    (mkWorld (mkStore (assoc_map_at codeId (apply_patch p)
                                         (st_codes (w_store w)))
                                      (st_rsvps (w_store w)))
                             (w_session w) (AUpdateCode codeId p :: w_log w)))).
  { unfold fetchCodeData, bind, ask, catch, query_codes, throw.
    rewrite Hdb; simpl. rewrite Hb; simpl. rewrite Hr; simpl. rewrite Hf'.
    reflexivity. }
  split; [reflexivity|].
  unfold validateCode, validateCodeForAccess, bind at 1. rewrite Hv.
  split; reflexivity.
Qed.

Lemma toggle_off_then_inactive_witness :
  let w' := snd (toggleCodeStatus "c1" false Sample.env_ok Sample.world0) in
  fst (toggleCodeStatus "c1" false Sample.env_ok Sample.world0) = Ok true /\
  fst (validateCode "ab12cd34" Sample.env_ok w') = Err ErrCodeInactive /\
  fst (validateCodeForAccess "ab12cd34" Sample.env_ok w') = Err ErrCodeInactive.
Proof.
  apply (toggle_off_then_inactive "ab12cd34" "c1" Sample.code1);
    reflexivity.
Defined.

(** [incrementUsedGuests] never rejects: [true] means the counter of
    [codeId] (which exists) went up by [guestsToAdd]; [false] means
    nothing was written. *)
Theorem incrementUsedGuests_spec (codeId : string) (guestsToAdd : Z)
    (env : Env) (w : World) :
  match incrementUsedGuests codeId guestsToAdd env w with
  | (Err _, _) => False
  | (Ok true, w') =>
      lookup codeId (st_codes (w_store w)) <> None /\
      st_codes (w_store w')
        = incr_codes codeId guestsToAdd (st_codes (w_store w)) /\
      st_rsvps (w_store w') = st_rsvps (w_store w)
  | (Ok false, w') => w_store w' = w_store w
  end.
Proof.
  unfold incrementUsedGuests, bind, ask, ret, catch, commit.
  destruct (env_db env); cbn [negb]; [|reflexivity].
  destruct (env_writes_ok env); [|reflexivity].
  cbn [apply_batch apply_op].
  destruct (lookup codeId (st_codes (w_store w))) eqn:Hl; [|reflexivity].
  cbn. repeat split; congruence.
Qed.

(** [checkAndHandleExistingRSVP] never rejects and never writes to the
    store; it answers [true] exactly when [checkExistingRSVP] resolved
    [true], and only then sets the [rsvpSubmitted] session flag. *)
Theorem checkAndHandle_spec (code : string) (env : Env) (w : World) :
  match checkAndHandleExistingRSVP code env w with
  | (Err _, _) => False
  | (Ok b, w') =>
      w_store w' = w_store w /\
      (b = true <-> fst (checkExistingRSVP code env w) = Ok true) /\
      w_session w' = (if b then mkSession (ss_current (w_session w)) true
                      else w_session w)
  end.
Proof.
  pose proof (checkExisting_world code env w) as [Hs Hss].
  unfold checkAndHandleExistingRSVP, catch, bind, set_session, ret.
  destruct (checkExistingRSVP code env w) as [[[]|e] w1]; simpl in *.
  - rewrite Hs, Hss. repeat split; auto.
  - rewrite Hs, Hss. repeat split; auto; discriminate.
  - repeat split; auto; discriminate.
Qed.

(** ** Statistics *)








Lemma length_filter_le {A} (f : A -> bool) (l : list A) :
  (length (filter f l) <= length l)%nat.
Proof. induction l; simpl; [lia|destruct (f a); simpl; lia]. Qed.

Lemma length_filter_disjoint {A} (f g : A -> bool) (l : list A) :
  (forall x, f x = true -> g x = false) ->
  (length (filter f l) + length (filter g l) <= length l)%nat.
Proof.
  intros H. induction l as [|x r IH]; simpl; [lia|].
  destruct (f x) eqn:Ef; [rewrite (H x Ef)|destruct (g x)]; simpl; lia.
Qed.

(** [getStatistics]: the active count never exceeds the total (so the
    inactive count is between 0 and the total), and no RSVP is counted
    both as attending and as not attending. *)
Theorem statistics_counts (codes : list (string * CodeDoc))
    (rsvps : list RsvpDoc) :
  let st := compute_statistics codes rsvps in
  0 <= st_active st /\ 0 <= st_inactive st <= st_total st /\
  0 <= st_attending st /\ 0 <= st_notAttending st /\
  st_attending st + st_notAttending st <= st_rsvpTotal st.
Proof.
  cbn. unfold zlen.
  pose proof (length_filter_le (fun c : string * CodeDoc => cd_isActive (snd c))
                codes).
  pose proof (length_filter_disjoint is_attending is_not_attending rsvps)
    as Hd.
  assert (Hx : forall x, is_attending x = true -> is_not_attending x = false).
  { unfold is_attending, is_not_attending. intros x Hx.
    apply String.eqb_eq in Hx. rewrite Hx. reflexivity. }
  specialize (Hd Hx). lia.
Qed.


(** ** Submitting, deleting and submitting again *)

Lemma submit_ok_shape (fd : FormData) (env : Env) (w : World)
    (id : string) (rec : RsvpDoc) (w' : World) :
  submitRSVP fd env w = (Ok (id, rec), w') ->
  exists cur,
    ss_current (w_session w) = Some cur /\
    env_db env = true /\ env_writes_ok env = true /\
    fields_error fd = None /\
    id = env_new_id env /\
    rec = build_rsvp cur fd (guests_count_of fd) (env_now env) /\
    st_rsvps (w_store w') = assoc_set id rec (st_rsvps (w_store w)) /\
    (if attending fd
     then lookup (s_id cur) (st_codes (w_store w)) <> None /\
          st_codes (w_store w')
            = incr_codes (s_id cur) (guests_count_of fd) (st_codes (w_store w))
     else st_codes (w_store w') = st_codes (w_store w)) /\
    w_session w' = mkSession None true.
Proof.
  unfold submitRSVP, bind, ask, get_world, throw, ret, catch, commit,
    set_session.
  destruct (env_db env) eqn:Hdb; simpl; [|discriminate].
  destruct (ss_current (w_session w)) as [cur|] eqn:Hcur; [|discriminate].
  destruct (fields_error fd) eqn:Hf; [discriminate|].
  pose proof (checkExisting_world (s_code cur) env w) as [Hs Hss].
  destruct (checkExistingRSVP (s_code cur) env w) as [[b|e] w1];
    simpl in Hs, Hss; [|discriminate].
  destruct b; [discriminate|].
  destruct (guests_count_of fd >? s_remainingGuests cur); [discriminate|].
  destruct (env_writes_ok env) eqn:Hw; simpl;
    [|destruct (message_has_ya_has_enviado ErrStore); discriminate].
  unfold submit_batch. destruct (attending fd) eqn:Ha; simpl.
  - rewrite Hs.
    destruct (lookup (s_id cur) (st_codes (w_store w))) eqn:Hl; simpl;
      [|destruct (message_has_ya_has_enviado ErrStore); discriminate].
    intros H; injection H as <- <- <-. exists cur. simpl.
    repeat split; auto; congruence.
  - rewrite Hs. intros H; injection H as <- <- <-. exists cur. simpl.
    repeat split; auto.
Qed.

Lemma used_of_inc_used_cancel (g : Z) (d : CodeDoc) :
  used_of (inc_used (- g) (inc_used g d)) = used_of d.
Proof. rewrite !used_of_inc_used. lia. Qed.

Lemma rsvp_with_code_assoc_set (c k : string) (v : RsvpDoc)
    (l : list (string * RsvpDoc)) :
  r_code v = c -> rsvp_with_code c (assoc_set k v l) = true.
Proof.
  intros Hc. unfold rsvp_with_code. apply existsb_exists.
  exists (k, v). split; [|simpl; rewrite Hc; apply String.eqb_refl].
  induction l as [|[k' v'] r IH]; simpl; [left; reflexivity|].
  destruct (String.eqb_spec k k') as [->|_]; simpl;
    [left; reflexivity|right; exact IH].
Qed.

(** Deleting the RSVP just submitted (stored under a fresh id, for a code
    with a non-empty id, reads allowed) succeeds and undoes the
    submission: the RSVP list is back to what it was, and every code's
    [usedGuests] count is back to its value before the submission. *)
Theorem submit_then_delete_restores (fd : FormData) (env : Env) (w : World)
    (id : string) (rec : RsvpDoc) (w1 : World) :
  submitRSVP fd env w = (Ok (id, rec), w1) ->
  lookup id (st_rsvps (w_store w)) = None ->
  r_codeId rec <> "" ->
  env_reads_ok env = true ->
  let w2 := snd (deleteRSVP id env w1) in
  fst (deleteRSVP id env w1) = Ok true /\
  st_rsvps (w_store w2) = st_rsvps (w_store w) /\
  (forall k, option_map used_of (lookup k (st_codes (w_store w2)))
             = option_map used_of (lookup k (st_codes (w_store w)))).
Proof.
  intros Hsub Hfresh Hcid Hr.
  destruct (submit_ok_shape _ _ _ _ _ _ Hsub)
    as (cur & _ & Hdb & Hw & _ & _ & Hrec & Hrs & Hcodes & _).
  assert (Hrs1 : assoc_remove id (st_rsvps (w_store w1)) = st_rsvps (w_store w)).
  { rewrite Hrs, (assoc_set_fresh _ _ _ Hfresh), assoc_remove_app_single.
    apply assoc_remove_fresh. exact Hfresh. }
  assert (Hget : lookup id (st_rsvps (w_store w1)) = Some rec)
    by (rewrite Hrs; apply lookup_assoc_set_same).
  assert (Hid : r_codeId rec = s_id cur) by (rewrite Hrec; reflexivity).
  assert (Hg : r_guestsCount rec = guests_count_of fd)
    by (rewrite Hrec; reflexivity).
  assert (Hatt : String.eqb (r_attendance rec) "Will attend" = attending fd).
  { rewrite Hrec. simpl. destruct (attending fd); reflexivity. }
  assert (Hcid' : String.eqb (r_codeId rec) "" = false)
    by (apply String.eqb_neq; exact Hcid).
  unfold deleteRSVP, bind, ask, catch, get_rsvp, commit, ret, throw.
  rewrite Hdb; simpl. rewrite Hr. simpl. rewrite Hget. simpl. rewrite Hw.
  unfold delete_batch. rewrite Hatt, Hcid'. simpl.
  destruct (attending fd) eqn:Ha; simpl.
  - destruct Hcodes as [Hl Hcodes].
    rewrite Hid, Hcodes, Hg, lookup_incr_codes.
    destruct (lookup (s_id cur) (st_codes (w_store w))) as [d|] eqn:Hld;
      [|congruence].
    simpl. repeat split; [exact Hrs1|].
    intros k. destruct (String.eqb_spec k (s_id cur)) as [->|Hne].
    + rewrite lookup_incr_codes, lookup_incr_codes, Hld. simpl.
      rewrite used_of_inc_used_cancel. reflexivity.
    + rewrite !lookup_incr_codes_other by exact Hne. reflexivity.
  - repeat split; [exact Hrs1|]. intros k. rewrite Hcodes. reflexivity.
Qed.

Lemma submit_then_delete_restores_witness :
  let fd := Sample.form_si "2" in
  let w1 := snd (submitRSVP fd Sample.env_ok SubmitSample.world_held) in
  submitRSVP fd Sample.env_ok SubmitSample.world_held
    = (Ok ("r1", build_rsvp SubmitSample.cur1 fd 2 100), w1) /\
  (let w2 := snd (deleteRSVP "r1" Sample.env_ok w1) in
   fst (deleteRSVP "r1" Sample.env_ok w1) = Ok true /\
   st_rsvps (w_store w2) = st_rsvps (w_store SubmitSample.world_held) /\
   (forall k, option_map used_of (lookup k (st_codes (w_store w2)))
              = option_map used_of
                  (lookup k (st_codes (w_store SubmitSample.world_held))))).
Proof.
  intros fd w1.
  assert (H : submitRSVP fd Sample.env_ok SubmitSample.world_held
              = (Ok ("r1", build_rsvp SubmitSample.cur1 fd 2 100), w1))
    by reflexivity.
  split; [exact H|].
  exact (submit_then_delete_restores fd Sample.env_ok SubmitSample.world_held
           _ _ _ H eq_refl ltac:(discriminate) eq_refl).
Defined.

(** After a successful submission, holding the same (normalised,
    non-blank) code again, e.g. by validating it anew, does not allow a
    second submission: with reads allowed [submitRSVP] rejects with the
    duplicate-submission error and writes nothing. *)
Theorem resubmit_after_success (fd fd' : FormData) (env : Env) (w : World)
    (cur : Snapshot) (id : string) (rec : RsvpDoc) (w1 : World) :
  submitRSVP fd env w = (Ok (id, rec), w1) ->
  ss_current (w_session w) = Some cur ->
  env_reads_ok env = true ->
  normalize (s_code cur) = s_code cur ->
  blank_code (s_code cur) = false ->
  fields_error fd' = None ->
  let w2 := snd (setCurrentCode cur env w1) in
  fst (submitRSVP fd' env w2) = Err ErrAlreadySubmitted /\
  w_store (snd (submitRSVP fd' env w2)) = w_store w1.
Proof.
  intros Hsub Hcur Hr Hn Hb Hf w2.
  destruct (submit_ok_shape _ _ _ _ _ _ Hsub)
    as (cur' & Hcur' & Hdb & _ & _ & _ & Hrec & Hrs & _ & _).
  rewrite Hcur in Hcur'. injection Hcur' as <-.
  assert (Hex : rsvp_with_code (normalize (s_code cur)) (st_rsvps (w_store w2))
                = true).
  { unfold w2, setCurrentCode, set_session. simpl. rewrite Hrs, Hn.
    apply rsvp_with_code_assoc_set. rewrite Hrec. reflexivity. }
  assert (Hcur2 : ss_current (w_session w2) = Some cur) by reflexivity.
  assert (Hst2 : w_store w2 = w_store w1) by reflexivity.
  rewrite <- Hst2. clearbody w2.
  assert (Hce : checkExistingRSVP (s_code cur) env w2
                = (Ok true, log_access (AQueryRsvps (normalize (s_code cur))) w2)).
  { unfold checkExistingRSVP, bind, ask, catch, query_rsvps, ret.
    rewrite Hdb; simpl. rewrite Hb; simpl. rewrite Hr, Hex. reflexivity. }
  assert (Hrun : submitRSVP fd' env w2
                 = (Err ErrAlreadySubmitted,
                    log_access (AQueryRsvps (normalize (s_code cur))) w2)).
  { unfold submitRSVP, bind, ask, get_world, throw.
    rewrite Hdb; simpl. rewrite Hcur2, Hf, Hce. reflexivity. }
  rewrite Hrun. split; reflexivity.
Qed.

Lemma resubmit_after_success_witness :
  let fd := Sample.form_si "2" in
  let w1 := snd (submitRSVP fd Sample.env_ok SubmitSample.world_held) in
  submitRSVP fd Sample.env_ok SubmitSample.world_held
    = (Ok ("r1", build_rsvp SubmitSample.cur1 fd 2 100), w1) /\
  (let w2 := snd (setCurrentCode SubmitSample.cur1 Sample.env_ok w1) in
   fst (submitRSVP fd Sample.env_ok w2) = Err ErrAlreadySubmitted /\
   w_store (snd (submitRSVP fd Sample.env_ok w2)) = w_store w1).
Proof.
  intros fd w1.
  assert (H : submitRSVP fd Sample.env_ok SubmitSample.world_held
              = (Ok ("r1", build_rsvp SubmitSample.cur1 fd 2 100), w1))
    by reflexivity.
  split; [exact H|].
  exact (resubmit_after_success fd fd Sample.env_ok SubmitSample.world_held
           SubmitSample.cur1 _ _ _ H eq_refl eq_refl eq_refl eq_refl eq_refl).
Defined.
